(** * SessionPackrat: hash reconciliation and auto-snapshot scheduling

    A shallow embedding of the reconciliation core of
    [src/cpp/session/modules/SessionPackrat.cpp]: the stored/computed hash
    comparison ([checkHashes]), the auto-snapshot scheduler
    ([performAutoSnapshot], [pendingSnapshot], [AutoSnapshot::onCompleted])
    and the file-change router ([onFileChanged]).

    The C++ code is imperative and works on process-wide state (function
    statics, the client-state store, the disk).  It is embedded as state
    transformers over an explicit [World] record, written in a small state
    monad so that each definition reads like the function it embeds. *)

From Stdlib Require Import ZArith String List Bool Lia.
From stdpp Require Import gmap strings.
Import ListNotations.

Local Open Scope string_scope.
Local Open Scope list_scope.

(** ** File paths and the disk *)

Module Core.

(** Modelled from the spec: [core::FilePath] is declared outside this file.
    A path is the sequence of its elements below the root; the operations
    are the ones [SessionPackrat.cpp] calls. *)
Definition FilePath : Type := list string.

Definition filename (p : FilePath) : string := List.last p "".

Definition parent (p : FilePath) : FilePath := List.removelast p.

Definition complete (p : FilePath) (rel : list string) : FilePath := p ++ rel.

(** [p.isWithin(scope)]: [scope] is [p] itself or one of its ancestors. *)
Fixpoint isWithin (p scope : FilePath) : bool :=
  match scope, p with
  | [], _ => true
  | s :: scope', c :: p' => String.eqb s c && isWithin p' scope'
  | _ :: _, [] => false
  end.

Fixpoint path_eqb (p q : FilePath) : bool :=
  match p, q with
  | [], [] => true
  | a :: p', b :: q' => String.eqb a b && path_eqb p' q'
  | _, _ => false
  end.

(** Modelled from the spec: the disk behind [FilePath::exists],
    [FilePath::isDirectory], [FilePath::childrenRecursive] and
    [core::readStringFromFile], all declared outside this file.  It lists
    every existing path with what is stored there, in the order a recursive
    directory traversal visits them.  A file whose content is [None] exists
    but cannot be read. *)
Inductive FsEntry : Type :=
  | FsDirectory
  | FsFile (content : option string).

Definition FileSystem : Type := list (FilePath * FsEntry).

Fixpoint fsLookup (fs : FileSystem) (p : FilePath) : option FsEntry :=
  match fs with
  | [] => None
  | (q, e) :: fs' => if path_eqb q p then Some e else fsLookup fs' p
  end.

Definition pathExists (fs : FileSystem) (p : FilePath) : bool :=
  match fsLookup fs p with Some _ => true | None => false end.

Definition isDirectory (fs : FileSystem) (p : FilePath) : bool :=
  match fsLookup fs p with Some FsDirectory => true | _ => false end.

(** [readStringFromFile]: [None] stands for a returned [Error]. *)
Definition readStringFromFile (fs : FileSystem) (p : FilePath) : option string :=
  match fsLookup fs p with
  | Some (FsFile (Some s)) => Some s
  | _ => None
  end.

(** [dir.childrenRecursive(f)] visits every path strictly below [dir]. *)
Definition childrenRecursive (fs : FileSystem) (dir : FilePath) : list FilePath :=
  map fst (List.filter (fun e => isWithin (fst e) dir && negb (path_eqb (fst e) dir)) fs).

(** Modelled from the spec: [json::Value], declared outside this file, as
    far as the stored hashes need it: a stored hash is a JSON string and
    anything else reads as the empty hash. *)
Inductive JsonValue : Type :=
  | JsonNull
  | JsonBool (b : bool)
  | JsonInt (z : Z)
  | JsonString (s : string).

(** A C++ [int]: 32 bits, two's complement. *)
Definition INT_MAX : Z := 2147483647.

Definition int_wrap (z : Z) : Z := ((z + 2 ^ 31) mod 2 ^ 32 - 2 ^ 31)%Z.

End Core.

Export Core.

(** ** The session state *)

(** An R list of pending restore actions (a [SEXP]); each action is opaque. *)
Definition SEXP : Type := list string.

Inductive ClientEvent : Type :=
  | kInstalledPackagesChanged
  | kPackratRestoreNeeded (restoreActions : SEXP).

(** Which call reported the [Error] that was logged. *)
Inductive ErrorSource : Type :=
  | ErrReadLockfile
  | ErrGetAutoSnapshotCmd
  | ErrPendingRestoreActions.

(** The calls to the outside that leave a mark, in program order. *)
Inductive Effect : Type :=
  | EffLogError (src : ErrorSource)
  | EffPutProjectPersistent (scope key value : string)
  | EffEnqueClientEvent (e : ClientEvent)
  | EffProcessStart (cmd : string) (workingDir : FilePath) (targetHash : string).

(** Modelled from the spec: [async_r::AsyncRProcess], the base class of
    [AutoSnapshot], is declared outside this file.  Of it the scheduler
    uses [start], [isRunning] and the delivery of [onCompleted]: the process
    is running from [start] until the external process exits. *)
Record AutoSnapshot : Type := mkAutoSnapshot {
  targetHash_ : string;
  isRunning_ : bool
}.

(** Everything the code reads or writes.  The project-persistent client
    state ([r::session::clientState()]) is a finite map from scope and key
    to JSON values; the two R functions the code calls are given by the
    answer they would return. *)
Record World : Type := mkWorld {
  (* the environment *)
  projectDirectory : FilePath;
  fileSystem : FileSystem;
  projectPersistent : gmap (string * string) JsonValue;
  rsPendingRestoreActions : option SEXP;   (* [None]: the R call fails *)
  rsGetAutoSnapshotCmd : option string;    (* [None]: the R call fails *)
  (* function statics *)
  recursionGuard : bool;                   (* of [checkHashes] *)
  pendingSnapshots : Z;                    (* of [pendingSnapshot] *)
  pAutoSnapshot : option AutoSnapshot;     (* of [performAutoSnapshot] *)
  (* what the code did to the outside so far, oldest first *)
  effects : list Effect
}.

Definition set_projectPersistent (f : gmap (string * string) JsonValue -> gmap (string * string) JsonValue) (w : World) : World :=
  mkWorld (projectDirectory w) (fileSystem w) (f (projectPersistent w))
          (rsPendingRestoreActions w) (rsGetAutoSnapshotCmd w)
          (recursionGuard w) (pendingSnapshots w) (pAutoSnapshot w) (effects w).

Definition set_recursionGuard (b : bool) (w : World) : World :=
  mkWorld (projectDirectory w) (fileSystem w) (projectPersistent w)
          (rsPendingRestoreActions w) (rsGetAutoSnapshotCmd w)
          b (pendingSnapshots w) (pAutoSnapshot w) (effects w).

Definition set_pendingSnapshots (n : Z) (w : World) : World :=
  mkWorld (projectDirectory w) (fileSystem w) (projectPersistent w)
          (rsPendingRestoreActions w) (rsGetAutoSnapshotCmd w)
          (recursionGuard w) n (pAutoSnapshot w) (effects w).

Definition set_pAutoSnapshot (p : option AutoSnapshot) (w : World) : World :=
  mkWorld (projectDirectory w) (fileSystem w) (projectPersistent w)
          (rsPendingRestoreActions w) (rsGetAutoSnapshotCmd w)
          (recursionGuard w) (pendingSnapshots w) p (effects w).

Definition emits (l : list Effect) (w : World) : World :=
  mkWorld (projectDirectory w) (fileSystem w) (projectPersistent w)
          (rsPendingRestoreActions w) (rsGetAutoSnapshotCmd w)
          (recursionGuard w) (pendingSnapshots w) (pAutoSnapshot w)
          (effects w ++ l).

Definition emit (e : Effect) (w : World) : World := emits [e] w.

(** The disk and the R session change under the program's feet: the
    external tool and the user write files between two callbacks. *)
Record Environment : Type := mkEnvironment {
  envFileSystem : FileSystem;
  envPendingRestoreActions : option SEXP;
  envGetAutoSnapshotCmd : option string
}.

Definition set_environment (e : Environment) (w : World) : World :=
  mkWorld (projectDirectory w) (envFileSystem e) (projectPersistent w)
          (envPendingRestoreActions e) (envGetAutoSnapshotCmd e)
          (recursionGuard w) (pendingSnapshots w) (pAutoSnapshot w) (effects w).

(** ** The state monad *)

Definition M (A : Type) : Type := World -> A * World.

Definition ret {A : Type} (a : A) : M A := fun w => (a, w).

Definition bind {A B : Type} (m : M A) (k : A -> M B) : M B :=
  fun w => k (fst (m w)) (snd (m w)).

Definition gets {A : Type} (f : World -> A) : M A := fun w => (f w, w).

Definition modify (f : World -> World) : M unit := fun w => (tt, f w).

(** The world a command leaves behind. *)
Definition exec {A : Type} (m : M A) (w : World) : World := snd (m w).

Declare Scope packrat_scope.
Delimit Scope packrat_scope with packrat.
Notation "'let*' x ':=' m 'in' k" := (bind m (fun x => k))
  (at level 10, x name, m at level 100, k at level 200) : packrat_scope.
Notation "m1 ';;;' m2" := (bind m1 (fun _ => m2))
  (at level 100, m2 at level 200, right associativity) : packrat_scope.
Local Open Scope packrat_scope.

Definition LOG_ERROR (src : ErrorSource) : M unit := modify (emit (EffLogError src)).

Definition enqueClientEvent (e : ClientEvent) : M unit :=
  modify (emit (EffEnqueClientEvent e)).

(** ** The program *)

Inductive PackratHashType : Type :=
  | HASH_TYPE_LOCKFILE
  | HASH_TYPE_LIBRARY.

Inductive PendingSnapshotAction : Type :=
  | SET_PENDING_SNAPSHOT
  | COMPLETE_SNAPSHOT.

#[global] Instance PackratHashType_eq_dec : EqDecision PackratHashType.
Proof. solve_decision. Defined.

Section SessionPackrat.

(** [hash::crc32HexHash] of [core/Hash.hpp], declared outside this file:
    a parameter, any function of the content. *)
Variable crc32HexHash : string -> string.

(** *** Library and lockfile hashing and comparison *)

Definition keyOfHashType (hashType : PackratHashType) : string :=
  match hashType with
  | HASH_TYPE_LOCKFILE => "packratLockfileHash"
  | HASH_TYPE_LIBRARY => "packratLibraryHash"
  end.

Definition getStoredHash (hashType : PackratHashType) : M string :=
  let* hash := gets (fun w => projectPersistent w !! ("packrat", keyOfHashType hashType)) in
  match hash with
  | Some (JsonString s) => ret s
  | _ => ret ""
  end.

Definition setStoredHash (hashType : PackratHashType) (hash : string) : M unit :=
  modify (set_projectPersistent
            (fun m => <[("packrat", keyOfHashType hashType) := JsonString hash]> m)) ;;;
  modify (emit (EffPutProjectPersistent "packrat" (keyOfHashType hashType) hash)).

(** Appends the content of [path] when it is a DESCRIPTION file; the
    [Error] of a failed read is dropped and nothing is appended. *)
Definition addDescContent (fs : FileSystem) (path : FilePath) (descContent : string) : string :=
  if String.eqb (filename path) "DESCRIPTION"
  then descContent ++ match readStringFromFile fs path with
                      | Some newDescContent => newDescContent
                      | None => ""
                      end
  else descContent.

Definition computeLibraryHash : M string :=
  let* projectDir := gets projectDirectory in
  let* fs := gets fileSystem in
  let libraryPath := complete projectDir ["packrat"; "lib"] in
  let descFileContent :=
    fold_left (fun acc path => addDescContent fs path acc)
              (childrenRecursive fs libraryPath) "" in
  if String.eqb descFileContent "" then ret ""
  else ret (crc32HexHash descFileContent).

Definition computeLockfileHash : M string :=
  let* projectDir := gets projectDirectory in
  let* fs := gets fileSystem in
  let lockFilePath := complete projectDir ["packrat"; "packrat.lock"] in
  if negb (pathExists fs lockFilePath) then ret ""
  else
    match readStringFromFile fs lockFilePath with
    | None => LOG_ERROR ErrReadLockfile ;;; ret ""
    | Some lockFileContent => ret (crc32HexHash lockFileContent)
    end.

Definition getComputedHash (hashType : PackratHashType) : M string :=
  match hashType with
  | HASH_TYPE_LOCKFILE => computeLockfileHash
  | HASH_TYPE_LIBRARY => computeLibraryHash
  end.

(** Modelled from the spec: the macro [DROP_RECURSIVE_CALLS] of
    [core/RecursionGuard.hpp] is defined outside this file.  It runs the
    rest of the function only when the function is not already active, and
    the flag is released on every way out of the function. *)
Definition DROP_RECURSIVE_CALLS (body : M unit) : M unit :=
  let* active := gets recursionGuard in
  if active then ret tt
  else
    modify (set_recursionGuard true) ;;;
    body ;;;
    modify (set_recursionGuard false).

Definition checkHashes (primary secondary : PackratHashType)
    (onPrimaryMismatch : string -> string -> M unit) : M unit :=
  DROP_RECURSIVE_CALLS (
    let* oldHash := getStoredHash primary in
    let* newHash := getComputedHash primary in
    (* hashes match, no work needed *)
    if String.eqb oldHash newHash then ret tt
    else
      let* storedSecondary := getStoredHash secondary in
      let* computedSecondary := getComputedHash secondary in
      (* primary hashes mismatch, secondary hashes match *)
      if String.eqb storedSecondary computedSecondary
      then onPrimaryMismatch oldHash newHash
      (* primary and secondary hashes mismatch *)
      else
        setStoredHash primary newHash ;;;
        let* h := getComputedHash secondary in
        setStoredHash secondary h).

(** *** Auto-snapshot *)

(** [AutoSnapshot::create]: a failed [.rs.getAutoSnapshotCmd] is logged and
    the process is started all the same, with the empty command. *)
Definition AutoSnapshot_create (projectDir : FilePath) (targetHash : string) : M AutoSnapshot :=
  let* r := gets rsGetAutoSnapshotCmd in
  let* snapshotCmd :=
    match r with
    | Some cmd => ret cmd
    | None => LOG_ERROR ErrGetAutoSnapshotCmd ;;; ret ""
    end in
  modify (emit (EffProcessStart snapshotCmd projectDir targetHash)) ;;;
  ret {| targetHash_ := targetHash; isRunning_ := true |}.

(** The branch [action == SET_PENDING_SNAPSHOT] of [pendingSnapshot].  The
    C++ functions [pendingSnapshot] and [performAutoSnapshot] call each
    other; this branch calls nothing, so it comes first. *)
Definition pendingSnapshot_set : M unit :=
  let* n := gets pendingSnapshots in
  modify (set_pendingSnapshots (int_wrap (n + 1))).

Definition performAutoSnapshot (newHash : string) : M unit :=
  let* p := gets pAutoSnapshot in
  (* start a new auto-snapshot *)
  let start : M unit :=
    let* projectDir := gets projectDirectory in
    let* s := AutoSnapshot_create projectDir newHash in
    modify (set_pAutoSnapshot (Some s)) in
  match p with
  | Some running =>
      if isRunning_ running then
        (* is the requested snapshot for the same state we are already
           snapshotting? if it is, ignore the request *)
        if String.eqb (targetHash_ running) newHash then ret tt
        else pendingSnapshot_set
      else start
  | None => start
  end.

Definition pendingSnapshot (action : PendingSnapshotAction) : M unit :=
  match action with
  | SET_PENDING_SNAPSHOT => pendingSnapshot_set
  | COMPLETE_SNAPSHOT =>
      let* n := gets pendingSnapshots in
      if (0 <? n)%Z then
        modify (set_pendingSnapshots 0%Z) ;;;
        let* h := computeLibraryHash in
        performAutoSnapshot h
      else
        (* library and lockfile are now in sync *)
        let* lockfileHash := computeLockfileHash in
        setStoredHash HASH_TYPE_LOCKFILE lockfileHash ;;;
        let* libraryHash := computeLibraryHash in
        setStoredHash HASH_TYPE_LIBRARY libraryHash ;;;
        enqueClientEvent kInstalledPackagesChanged
  end.

(** [AutoSnapshot::onCompleted]. *)
Definition onCompleted (exitStatus : Z) : M unit :=
  if negb (exitStatus =? 0)%Z then ret tt
  else pendingSnapshot COMPLETE_SNAPSHOT.

(** Modelled from the spec: the exit of the external process, which
    [async_r::AsyncRProcess] turns into the call of [onCompleted]; the
    snapshot is no longer running when the callback runs. *)
Definition onProcessCompleted (exitStatus : Z) : M unit :=
  let* p := gets pAutoSnapshot in
  match p with
  | Some s =>
      modify (set_pAutoSnapshot (Some {| targetHash_ := targetHash_ s; isRunning_ := false |})) ;;;
      onCompleted exitStatus
  | None => ret tt
  end.

(** *** Library and lockfile monitoring *)

Definition onLockfileUpdate (oldHash newHash : string) : M unit :=
  (* check to see if there are any restore actions pending *)
  let* r := gets rsPendingRestoreActions in
  match r with
  | None => LOG_ERROR ErrPendingRestoreActions
  | Some actions =>
      if Nat.eqb (List.length actions) 0
      then setStoredHash HASH_TYPE_LOCKFILE newHash
      else enqueClientEvent (kPackratRestoreNeeded actions)
  end.

Definition onLibraryUpdate (oldHash newHash : string) : M unit :=
  performAutoSnapshot newHash.

Definition onFileChanged (sourceFilePath : FilePath) : M unit :=
  let* projectDir := gets projectDirectory in
  let* fs := gets fileSystem in
  let libraryPath := complete projectDir ["packrat"; "lib"] in
  if String.eqb (filename sourceFilePath) "packrat.lock" then
    checkHashes HASH_TYPE_LOCKFILE HASH_TYPE_LIBRARY onLockfileUpdate
  else if isWithin sourceFilePath libraryPath &&
          (isDirectory fs sourceFilePath ||
           String.eqb (filename sourceFilePath) "DESCRIPTION") then
    (* ignore changes in the RStudio-managed manipulate and rstudio
       directories and the files within them *)
    if String.eqb (filename sourceFilePath) "manipulate" ||
       String.eqb (filename sourceFilePath) "rstudio" ||
       String.eqb (filename (parent sourceFilePath)) "manipulate" ||
       String.eqb (filename (parent sourceFilePath)) "rstudio"
    then ret tt
    else checkHashes HASH_TYPE_LIBRARY HASH_TYPE_LOCKFILE onLibraryUpdate
  else ret tt.

Definition onPackageLibraryMutated : M unit :=
  let* projectDir := gets projectDirectory in
  let* fs := gets fileSystem in
  let libraryPath := complete projectDir ["packrat"; "lib"] in
  if pathExists fs libraryPath
  then checkHashes HASH_TYPE_LIBRARY HASH_TYPE_LOCKFILE onLibraryUpdate
  else ret tt.

Fixpoint onFilesChanged (changes : list FilePath) : M unit :=
  match changes with
  | [] => ret tt
  | changedFilePath :: rest => onFileChanged changedFilePath ;;; onFilesChanged rest
  end.

(** *** Reading the state *)

(** The stored hash of an artifact, as [getStoredHash] returns it. *)
Definition storedHash (hashType : PackratHashType) (w : World) : string :=
  fst (getStoredHash hashType w).

(** The hash of an artifact as the disk has it now. *)
Definition computedHash (hashType : PackratHashType) (w : World) : string :=
  fst (getComputedHash hashType w).

(** The project's lockfile, [packrat/packrat.lock] under the project. *)
Definition lockfilePath (w : World) : FilePath :=
  complete (projectDirectory w) ["packrat"; "packrat.lock"].

(** The lockfile is there and reading it fails. *)
Definition lockfileUnreadable (w : World) : bool :=
  pathExists (fileSystem w) (lockfilePath w) &&
  match readStringFromFile (fileSystem w) (lockfilePath w) with
  | Some _ => false
  | None => true
  end.

(** What computing a hash logs. *)
Definition hashErrors (hashType : PackratHashType) (w : World) : list Effect :=
  match hashType with
  | HASH_TYPE_LOCKFILE =>
      if lockfileUnreadable w then [EffLogError ErrReadLockfile] else []
  | HASH_TYPE_LIBRARY => []
  end.

(** The world after [setStoredHash]. *)
Definition putStored (hashType : PackratHashType) (hash : string) (w : World) : World :=
  emit (EffPutProjectPersistent "packrat" (keyOfHashType hashType) hash)
       (set_projectPersistent
          (fun m => <[("packrat", keyOfHashType hashType) := JsonString hash]> m) w).

(** The world in which the mismatch callback of a pass runs. *)
Definition callbackWorld (primary secondary : PackratHashType) (w : World) : World :=
  emits (hashErrors secondary w) (emits (hashErrors primary w) (set_recursionGuard true w)).

(** The command [AutoSnapshot::create] starts, and what it logs on the way. *)
Definition snapshotCmd (w : World) : string :=
  match rsGetAutoSnapshotCmd w with Some cmd => cmd | None => "" end.

Definition snapshotCmdErrors (w : World) : list Effect :=
  match rsGetAutoSnapshotCmd w with
  | Some _ => []
  | None => [EffLogError ErrGetAutoSnapshotCmd]
  end.

(** The world after [performAutoSnapshot] has started a snapshot aiming at [h]. *)
Definition startedWorld (h : string) (w : World) : World :=
  set_pAutoSnapshot (Some {| targetHash_ := h; isRunning_ := true |})
    (emits (snapshotCmdErrors w ++ [EffProcessStart (snapshotCmd w) (projectDirectory w) h]) w).

(** The world after the external process of the snapshot in flight exited. *)
Definition exitedWorld (w : World) : World :=
  match pAutoSnapshot w with
  | Some s => set_pAutoSnapshot (Some {| targetHash_ := targetHash_ s; isRunning_ := false |}) w
  | None => w
  end.

(** A snapshot aiming at [h] is in flight. *)
Definition snapshotRunning (h : string) (w : World) : Prop :=
  pAutoSnapshot w = Some {| targetHash_ := h; isRunning_ := true |}.

(** No snapshot is in flight. *)
Definition snapshotIdle (w : World) : Prop :=
  match pAutoSnapshot w with
  | Some s => isRunning_ s = false
  | None => True
  end.

Definition isProcessStart (e : Effect) : bool :=
  match e with EffProcessStart _ _ _ => true | _ => false end.

(** How many external processes were started so far. *)
Definition launches (w : World) : nat :=
  List.length (List.filter isProcessStart (effects w)).

(** *** Packrat context and options *)

(** [module_context::PackratContext], declared in SessionModuleContext.hpp:
    the four flags this file reads and writes. *)
Record PackratContext : Type := mkPackratContext {
  available : bool;
  applicable : bool;
  packified : bool;
  modeOn : bool
}.

(** A default-constructed [PackratContext]; its constructor is declared
    outside this file. *)
Variable defaultPackratContext : PackratContext.

(** The R list [packrat:::get_opts] returns, and [r::sexp::getNamedListElement]
    reading a flag from it: whether the call returned an [Error], and the
    value it left in the variable.  Both are declared outside this file. *)
Variable OptionsSEXP : Type.
Variable getNamedListElement : OptionsSEXP -> string -> bool -> bool * bool.

(** What the context functions ask of the session.  A call that writes a
    flag is given the value the flag has and answers whether it returned an
    [Error] and the value the flag has afterwards. *)
Record RSession : Type := mkRSession {
  packratInstalled : bool;                 (* isPackageVersionInstalled("packrat", "0.2.0.100") *)
  hasProject : bool;                       (* projects::projectContext().hasProject() *)
  rCheckPackified : bool -> bool * bool;   (* packrat:::checkPackified *)
  rIsPackratModeOn : bool -> bool * bool;  (* packrat:::isPackratModeOn *)
  rGetOpts : option OptionsSEXP            (* packrat:::get_opts; [None]: the call fails *)
}.

(** The [LOG_ERROR] calls of the context functions. *)
Inductive ContextError : Type :=
  | ErrCheckPackified
  | ErrIsPackratModeOn
  | ErrGetOpts
  | ErrOption (option : string).

Definition logIf (failed : bool) (e : ContextError) : list ContextError :=
  if failed then [e] else [].

Definition isRequiredPackratInstalled (r : RSession) : bool := packratInstalled r.

Definition packratContext (r : RSession) : PackratContext * list ContextError :=
  let context_available := isRequiredPackratInstalled r in
  let context_applicable := context_available && hasProject r in
  if context_applicable then
    let checked := rCheckPackified r (packified defaultPackratContext) in
    let context_packified := snd checked in
    if context_packified then
      let mode := rIsPackratModeOn r (modeOn defaultPackratContext) in
      ({| available := context_available; applicable := context_applicable;
          packified := context_packified; modeOn := snd mode |},
       logIf (fst checked) ErrCheckPackified ++ logIf (fst mode) ErrIsPackratModeOn)
    else
      ({| available := context_available; applicable := context_applicable;
          packified := context_packified; modeOn := modeOn defaultPackratContext |},
       logIf (fst checked) ErrCheckPackified)
  else
    ({| available := context_available; applicable := context_applicable;
        packified := packified defaultPackratContext;
        modeOn := modeOn defaultPackratContext |}, []).

Definition contextAsJson (context : PackratContext) : gmap string JsonValue :=
  <["mode_on" := JsonBool (modeOn context)]>
    (<["packified" := JsonBool (packified context)]>
       (<["applicable" := JsonBool (applicable context)]>
          (<["available" := JsonBool (available context)]> ∅))).

Definition copyOption (optionsSEXP : OptionsSEXP) (listName : string)
    (optionsJson : gmap string JsonValue) (jsonName : string) (defaultValue : bool)
    : gmap string JsonValue * list ContextError :=
  let got := getNamedListElement optionsSEXP listName defaultValue in
  (<[jsonName := JsonBool (snd got)]> optionsJson, logIf (fst got) (ErrOption listName)).

Definition defaultPackratOptions : gmap string JsonValue :=
  <["vcs_ignore_src" := JsonBool false]>
    (<["vcs_ignore_lib" := JsonBool true]>
       (<["auto_snapshot" := JsonBool true]>
          (<["mode_on" := JsonBool false]> ∅))).

Definition packratOptionsAsJson (r : RSession) : gmap string JsonValue * list ContextError :=
  let context := packratContext r in
  if packified (fst context) then
    (* create options to return and record mode *)
    let optionsJson := <["mode_on" := JsonBool (modeOn (fst context))]> ∅ in
    match rGetOpts r with
    | None => (defaultPackratOptions, snd context ++ [ErrGetOpts])
    | Some optionsSEXP =>
        let o1 := copyOption optionsSEXP "auto.snapshot" optionsJson "auto_snapshot" true in
        let o2 := copyOption optionsSEXP "vcs.ignore.lib" (fst o1) "vcs_ignore_lib" true in
        let o3 := copyOption optionsSEXP "vcs.ignore.src" (fst o2) "vcs_ignore_src" false in
        (fst o3, snd context ++ snd o1 ++ snd o2 ++ snd o3)
    end
  else (defaultPackratOptions, snd context).

(** *** What the library hash is taken of *)

(** The content a DESCRIPTION file adds: its text, or nothing when it
    cannot be read. *)
Definition descText (fs : FileSystem) (path : FilePath) : string :=
  match readStringFromFile fs path with
  | Some newDescContent => newDescContent
  | None => ""
  end.

(** The DESCRIPTION files below the library of the project [dir], in
    traversal order. *)
Definition descFilesOf (dir : FilePath) (fs : FileSystem) : list FilePath :=
  List.filter (fun path => String.eqb (filename path) "DESCRIPTION")
    (childrenRecursive fs (complete dir ["packrat"; "lib"])).

(** Their texts, one after the other. *)
Definition descContentOf (dir : FilePath) (fs : FileSystem) : string :=
  fold_right String.append "" (map (descText fs) (descFilesOf dir fs)).

Definition libraryDescContent (w : World) : string :=
  descContentOf (projectDirectory w) (fileSystem w).

(** The same world with one more entry at position [i] of the disk. *)
Definition withFile (i : nat) (path : FilePath) (e : FsEntry) (w : World) : World :=
  set_environment
    {| envFileSystem := firstn i (fileSystem w) ++ (path, e) :: skipn i (fileSystem w);
       envPendingRestoreActions := rsPendingRestoreActions w;
       envGetAutoSnapshotCmd := rsGetAutoSnapshotCmd w |} w.

(** *** Histories *)

(** A snapshot process is in flight. *)
Definition isRunning (w : World) : bool :=
  match pAutoSnapshot w with
  | Some s => isRunning_ s
  | None => false
  end.

(** What reaches the module from outside: the callbacks [initialize]
    registers (a batch of the file monitor to [onFilesChanged], a file saved
    in the source editor to [onFileChanged], a mutated package library to
    [onPackageLibraryMutated]), the exit of the snapshot process, and changes
    of the disk and of the R session. *)
Inductive SessionEvent : Type :=
  | EvFilesChanged (changes : list FilePath)
  | EvSourceEditorFileSaved (path : FilePath)
  | EvPackageLibraryMutated
  | EvProcessExited (exitStatus : Z)
  | EvOutside (e : Environment).

(** Only a process that is running can exit. *)
Definition deliver (ev : SessionEvent) (w : World) : World :=
  match ev with
  | EvFilesChanged changes => exec (onFilesChanged changes) w
  | EvSourceEditorFileSaved path => exec (onFileChanged path) w
  | EvPackageLibraryMutated => exec onPackageLibraryMutated w
  | EvProcessExited exitStatus =>
      if isRunning w then exec (onProcessCompleted exitStatus) w else w
  | EvOutside e => set_environment e w
  end.

Fixpoint run (evs : list SessionEvent) (w : World) : World :=
  match evs with
  | [] => w
  | ev :: rest => run rest (deliver ev w)
  end.

(** How many processes exited in the course of a history. *)
Fixpoint exitsDelivered (evs : list SessionEvent) (w : World) : nat :=
  match evs with
  | [] => 0
  | ev :: rest =>
      (match ev with
       | EvProcessExited _ => Nat.b2n (isRunning w)
       | _ => 0
       end + exitsDelivered rest (deliver ev w))%nat
  end.

(** How many changes a history reports. *)
Definition changesOf (ev : SessionEvent) : nat :=
  match ev with
  | EvFilesChanged changes => List.length changes
  | EvSourceEditorFileSaved _ => 1
  | EvPackageLibraryMutated => 1
  | EvProcessExited _ => 0
  | EvOutside _ => 0
  end.

Fixpoint changesIn (evs : list SessionEvent) : nat :=
  match evs with
  | [] => 0
  | ev :: rest => (changesOf ev + changesIn rest)%nat
  end.

(** The scheduler's share of the world. *)
Definition sched (w : World) : nat * option AutoSnapshot * Z :=
  (launches w, pAutoSnapshot w, pendingSnapshots w).

(** From [w] to [w'] at most [n] changes were reported and [x] processes
    exited: every process started is either the one in flight or has
    exited, no start is forgotten, and the pending count stays between zero
    and what the changes can have added, as long as that does not
    overflow. *)
Definition stepOK (n x : nat) (w w' : World) : Prop :=
  (launches w' + Nat.b2n (isRunning w) = launches w + x + Nat.b2n (isRunning w'))%nat /\
  (launches w <= launches w')%nat /\
  ((0 <= pendingSnapshots w)%Z ->
   (pendingSnapshots w + Z.of_nat n < INT_MAX)%Z ->
   (0 <= pendingSnapshots w' <= pendingSnapshots w + Z.of_nat n)%Z).

(** Requests for snapshots, one after the other. *)
Fixpoint requestAll (targets : list string) : M unit :=
  match targets with
  | [] => ret tt
  | h :: rest => performAutoSnapshot h ;;; requestAll rest
  end.

(** How many of the requested targets differ from [h1]. *)
Definition otherTargets (h1 : string) (targets : list string) : nat :=
  List.length (List.filter (fun h => negb (String.eqb h1 h)) targets).

(** The library directory of the project. *)
Definition libraryPath (w : World) : FilePath :=
  complete (projectDirectory w) ["packrat"; "lib"].

(** *** Example worlds *)

(** Stands in for [crc32HexHash] where a closed example needs a function;
    the theorems below hold for every function. *)
Definition exampleHash (content : string) : string := "#" ++ content.

Definition exampleProject : FilePath := ["home"; "user"; "proj"].

(** A project whose lockfile holds [lock] and whose library has one package
    with the DESCRIPTION [desc]. *)
Definition exampleDisk (lock desc : string) : FileSystem :=
  [ (exampleProject ++ ["packrat"], FsDirectory);
    (exampleProject ++ ["packrat"; "packrat.lock"], FsFile (Some lock));
    (exampleProject ++ ["packrat"; "lib"], FsDirectory);
    (exampleProject ++ ["packrat"; "lib"; "pkg"], FsDirectory);
    (exampleProject ++ ["packrat"; "lib"; "pkg"; "DESCRIPTION"], FsFile (Some desc)) ].

(** Stored hashes [lockHash] and [libHash], the disk [fs], the answer
    [actions] of the restore query, nothing in flight and nothing done. *)
Definition exampleWorld (lockHash libHash : string) (fs : FileSystem)
    (actions : option SEXP) : World :=
  {| projectDirectory := exampleProject;
     fileSystem := fs;
     projectPersistent :=
       <[("packrat", "packratLockfileHash") := JsonString lockHash]>
         (<[("packrat", "packratLibraryHash") := JsonString libHash]> ∅);
     rsPendingRestoreActions := actions;
     rsGetAutoSnapshotCmd := Some "packrat::snapshot()";
     recursionGuard := false;
     pendingSnapshots := 0;
     pAutoSnapshot := None;
     effects := [] |}.

(** Stored hashes ["A"] and ["B"]; the disk now hashes to ["#A2"] and
    ["#B2"]: both artifacts have drifted. *)
Definition conflictWorld : World :=
  exampleWorld "A" "B" (exampleDisk "A2" "B2") (Some []).

(** Stored hashes ["A"] and ["#B"]; the disk now hashes to ["#A2"] and
    ["#B"]: only the lockfile has drifted. *)
Definition lockfileDriftWorld (actions : option SEXP) : World :=
  exampleWorld "A" "#B" (exampleDisk "A2" "B") actions.

(** Stored hashes ["#A"] and ["B"]; the disk now hashes to ["#A"] and
    ["#B2"]: only the library has drifted. *)
Definition libraryDriftWorld : World :=
  exampleWorld "#A" "B" (exampleDisk "A" "B2") (Some []).

(** A file named [packrat.lock] that is not the project's lockfile. *)
Definition strayLockfile : FilePath := exampleProject ++ ["docs"; "packrat.lock"].

Definition strayLockfileWorld : World :=
  exampleWorld "A" "#B"
    (exampleDisk "A2" "B" ++
     [(exampleProject ++ ["docs"], FsDirectory); (strayLockfile, FsFile (Some "x"))])
    (Some []).

(** What the disk has become by the time a snapshot exits. *)
Definition laterEnvironment : Environment :=
  {| envFileSystem := exampleDisk "A3" "B3";
     envPendingRestoreActions := Some [];
     envGetAutoSnapshotCmd := Some "packrat::snapshot()" |}.

(** Stored hashes ["#A"] and ["#B"], as the disk has them: nothing has
    drifted. *)
Definition inSyncWorld : World :=
  exampleWorld "#A" "#B" (exampleDisk "A" "B") (Some []).

(** The library has drifted and R cannot name the snapshot command. *)
Definition noCommandWorld : World :=
  set_environment
    {| envFileSystem := exampleDisk "A" "B2";
       envPendingRestoreActions := Some [];
       envGetAutoSnapshotCmd := None |} libraryDriftWorld.

(** The lockfile was deleted, or is there and cannot be read. *)
Definition noLockfileWorld : World :=
  exampleWorld "A" "#B" [(exampleProject ++ ["packrat"], FsDirectory)] (Some []).

Definition unreadableLockfileWorld : World :=
  exampleWorld "A" "#B"
    [(exampleProject ++ ["packrat"], FsDirectory);
     (exampleProject ++ ["packrat"; "packrat.lock"], FsFile None)] (Some []).

(** The DESCRIPTION file of the example package, and a file beside it. *)
Definition exampleDescription : FilePath :=
  exampleProject ++ ["packrat"; "lib"; "pkg"; "DESCRIPTION"].

Definition exampleNews : FilePath :=
  exampleProject ++ ["packrat"; "lib"; "pkg"; "NEWS"].

(** A history: the library changes twice while the snapshot runs, the
    snapshot exits with status zero, the follow-up fails. *)
Definition exampleHistory : list SessionEvent :=
  [ EvOutside laterEnvironment;
    EvFilesChanged [exampleDescription; exampleNews; exampleDescription];
    EvProcessExited 0;
    EvPackageLibraryMutated;
    EvProcessExited 1 ].

(** The same with a snapshot aiming at [h] in flight. *)
Definition exampleRunning (h : string) (w : World) : World :=
  set_pAutoSnapshot (Some {| targetHash_ := h; isRunning_ := true |}) w.

(** The library has drifted to ["#B2"] and the snapshot for it is running. *)
Definition runningWorld : World := exampleRunning "#B2" libraryDriftWorld.

(** ** Running the primitives *)

Lemma emits_nil (w : World) : emits [] w = w.
Proof. destruct w; unfold emits; cbn. now rewrite app_nil_r. Qed.

Lemma bind_run {A B : Type} (m : M A) (k : A -> M B) (w : World) :
  bind m k w = k (fst (m w)) (snd (m w)).
Proof. reflexivity. Qed.

Lemma getStoredHash_run (t : PackratHashType) (w : World) :
  getStoredHash t w = (storedHash t w, w).
Proof.
  unfold storedHash, getStoredHash, bind, gets; cbn.
  destruct (projectPersistent w !! _) as [[]|]; reflexivity.
Qed.

Lemma setStoredHash_run (t : PackratHashType) (h : string) (w : World) :
  setStoredHash t h w = (tt, putStored t h w).
Proof. reflexivity. Qed.

Lemma computeLockfileHash_run (w : World) :
  computeLockfileHash w =
  (computedHash HASH_TYPE_LOCKFILE w, emits (hashErrors HASH_TYPE_LOCKFILE w) w).
Proof.
  unfold computedHash, hashErrors, lockfileUnreadable, lockfilePath,
    getComputedHash, computeLockfileHash, complete, bind, gets; cbn -[emits].
  destruct (pathExists _ _); cbn -[emits]; [| rewrite emits_nil; reflexivity].
  destruct (readStringFromFile _ _); cbn -[emits]; [rewrite emits_nil; reflexivity | reflexivity].
Qed.

Lemma computeLibraryHash_run (w : World) :
  computeLibraryHash w = (computedHash HASH_TYPE_LIBRARY w, w).
Proof.
  unfold computedHash, getComputedHash, computeLibraryHash, bind, gets; cbn.
  destruct (String.eqb _ _); reflexivity.
Qed.

Lemma getComputedHash_run (t : PackratHashType) (w : World) :
  getComputedHash t w = (computedHash t w, emits (hashErrors t w) w).
Proof.
  destruct t; cbn [getComputedHash].
  - apply computeLockfileHash_run.
  - rewrite computeLibraryHash_run. cbn -[emits]. rewrite emits_nil; reflexivity.
Qed.

Lemma storedHash_lookup (t : PackratHashType) (w : World) :
  storedHash t w =
  match projectPersistent w !! ("packrat", keyOfHashType t) with
  | Some (JsonString s) => s
  | _ => ""
  end.
Proof.
  unfold storedHash, getStoredHash, bind, gets; cbn.
  destruct (projectPersistent w !! _) as [[]|]; reflexivity.
Qed.

(** The stored hashes are read from the store alone, the computed ones
    from the project directory and the disk alone. *)
Lemma storedHash_ext (t : PackratHashType) (w w' : World) :
  projectPersistent w = projectPersistent w' -> storedHash t w = storedHash t w'.
Proof. intros E. rewrite !storedHash_lookup, E. reflexivity. Qed.

Lemma computedHash_ext (t : PackratHashType) (w w' : World) :
  projectDirectory w = projectDirectory w' -> fileSystem w = fileSystem w' ->
  computedHash t w = computedHash t w'.
Proof.
  intros Ed Ef.
  unfold computedHash, getComputedHash, computeLockfileHash, computeLibraryHash,
    bind, gets; destruct t; cbn; rewrite Ed, Ef.
  - destruct (pathExists _ _); cbn; [| reflexivity].
    destruct (readStringFromFile _ _); reflexivity.
  - destruct (String.eqb _ _); reflexivity.
Qed.

Lemma hashErrors_ext (t : PackratHashType) (w w' : World) :
  projectDirectory w = projectDirectory w' -> fileSystem w = fileSystem w' ->
  hashErrors t w = hashErrors t w'.
Proof.
  intros Ed Ef. unfold hashErrors, lockfileUnreadable, lockfilePath.
  rewrite Ed, Ef; reflexivity.
Qed.

Lemma keyOfHashType_inj (t t' : PackratHashType) :
  keyOfHashType t = keyOfHashType t' -> t = t'.
Proof. destruct t, t'; cbn; congruence. Qed.

Lemma storedHash_putStored (t t' : PackratHashType) (h : string) (w : World) :
  storedHash t' (putStored t h w) = if decide (t = t') then h else storedHash t' w.
Proof.
  rewrite !storedHash_lookup. unfold putStored; cbn.
  destruct (decide (t = t')) as [->|Hne].
  - rewrite lookup_insert_eq; reflexivity.
  - rewrite lookup_insert_ne; [reflexivity |].
    intros [= E]. now apply keyOfHashType_inj in E.
Qed.

Lemma emits_emits (l1 l2 : list Effect) (w : World) :
  emits l2 (emits l1 w) = emits (l1 ++ l2) w.
Proof. unfold emits; cbn. now rewrite app_assoc. Qed.

(** Reads in a world that differs from [w] in what they do not look at. *)
Ltac reads_at w :=
  repeat match goal with
    | |- context [computedHash ?t ?W] =>
        lazymatch W with w => fail | _ => idtac end;
        rewrite (computedHash_ext t W w) by reflexivity
    | |- context [hashErrors ?t ?W] =>
        lazymatch W with w => fail | _ => idtac end;
        rewrite (hashErrors_ext t W w) by reflexivity
    | |- context [storedHash ?t ?W] =>
        lazymatch W with w => fail | _ => idtac end;
        rewrite (storedHash_ext t W w) by reflexivity
    end.

Ltac mstep :=
  first [ rewrite getStoredHash_run | rewrite getComputedHash_run
        | rewrite computeLibraryHash_run | rewrite computeLockfileHash_run
        | rewrite setStoredHash_run | progress cbn [fst snd] ].

Ltac mrun w := unfold exec, bind, gets, modify, ret; repeat (mstep; reads_at w).

(** ** Reconciliation: [checkHashes] *)

Lemma checkHashes_dropped (p s : PackratHashType) (cb : string -> string -> M unit) (w : World) :
  recursionGuard w = true -> checkHashes p s cb w = (tt, w).
Proof.
  intros Hg. unfold checkHashes, DROP_RECURSIVE_CALLS, bind, gets; cbn [fst snd].
  rewrite Hg. reflexivity.
Qed.

Lemma checkHashes_in_sync (p s : PackratHashType) (cb : string -> string -> M unit) (w : World) :
  recursionGuard w = false ->
  storedHash p w = computedHash p w ->
  exec (checkHashes p s cb) w =
  set_recursionGuard false (emits (hashErrors p w) (set_recursionGuard true w)).
Proof.
  intros Hg Hp. unfold checkHashes, DROP_RECURSIVE_CALLS.
  mrun w. rewrite Hg. mrun w.
  rewrite Hp, String.eqb_refl. reflexivity.
Qed.

Lemma checkHashes_primary_only (p s : PackratHashType) (cb : string -> string -> M unit) (w : World) :
  recursionGuard w = false ->
  storedHash p w <> computedHash p w ->
  storedHash s w = computedHash s w ->
  exec (checkHashes p s cb) w =
  set_recursionGuard false
    (exec (cb (storedHash p w) (computedHash p w)) (callbackWorld p s w)).
Proof.
  intros Hg Hp Hs. unfold checkHashes, DROP_RECURSIVE_CALLS.
  mrun w. rewrite Hg. mrun w.
  apply String.eqb_neq in Hp. rewrite Hp. mrun w.
  rewrite Hs, String.eqb_refl. reflexivity.
Qed.

Lemma checkHashes_both_drifted (p s : PackratHashType) (cb : string -> string -> M unit) (w : World) :
  recursionGuard w = false ->
  storedHash p w <> computedHash p w ->
  storedHash s w <> computedHash s w ->
  exec (checkHashes p s cb) w =
  set_recursionGuard false
    (putStored s (computedHash s w)
       (emits (hashErrors s w)
          (putStored p (computedHash p w) (callbackWorld p s w)))).
Proof.
  intros Hg Hp Hs. unfold checkHashes, DROP_RECURSIVE_CALLS.
  mrun w. rewrite Hg. mrun w.
  apply String.eqb_neq in Hp. rewrite Hp. mrun w.
  apply String.eqb_neq in Hs. rewrite Hs. mrun w.
  reflexivity.
Qed.

(** A pass looks at its callback only in [callbackWorld]. *)
Lemma checkHashes_callback_ext (p s : PackratHashType) (cb cb' : string -> string -> M unit) (w : World) :
  (forall o n, exec (cb o n) (callbackWorld p s w) = exec (cb' o n) (callbackWorld p s w)) ->
  exec (checkHashes p s cb) w = exec (checkHashes p s cb') w.
Proof.
  intros E. destruct (recursionGuard w) eqn:Hg.
  - unfold exec. now rewrite !checkHashes_dropped.
  - destruct (String.eqb_spec (storedHash p w) (computedHash p w)) as [Hp|Hp].
    + now rewrite !checkHashes_in_sync.
    + destruct (String.eqb_spec (storedHash s w) (computedHash s w)) as [Hs|Hs].
      * rewrite !checkHashes_primary_only by assumption. now rewrite E.
      * now rewrite !checkHashes_both_drifted.
Qed.

Lemma launches_emits (l : list Effect) (w : World) :
  launches (emits l w) = (launches w + List.length (List.filter isProcessStart l))%nat.
Proof. unfold launches, emits; cbn. now rewrite List.filter_app, List.length_app. Qed.

Lemma hashErrors_not_start (t : PackratHashType) (w : World) :
  List.filter isProcessStart (hashErrors t w) = [].
Proof. unfold hashErrors. destruct t; [destruct (lockfileUnreadable w) |]; reflexivity. Qed.

(** C3: when the computed hashes of both the primary and the secondary
    artifact differ from the stored ones, a reconciliation pass overwrites
    both stored hashes with the computed values; the mismatch callback is not
    run (the outcome is the same for every callback), no client event is
    queued, no process is started and the scheduler state is untouched. *)
Theorem checkHashes_conflict_policy
    (p s : PackratHashType) (cb : string -> string -> M unit) (w : World) :
  recursionGuard w = false ->
  storedHash p w <> computedHash p w ->
  storedHash s w <> computedHash s w ->
  let w' := exec (checkHashes p s cb) w in
  storedHash p w' = computedHash p w /\
  storedHash s w' = computedHash s w /\
  (forall cb', exec (checkHashes p s cb') w = w') /\
  effects w' =
    effects w ++ hashErrors p w ++ hashErrors s w ++
    [EffPutProjectPersistent "packrat" (keyOfHashType p) (computedHash p w)] ++
    hashErrors s w ++
    [EffPutProjectPersistent "packrat" (keyOfHashType s) (computedHash s w)] /\
  launches w' = launches w /\
  pendingSnapshots w' = pendingSnapshots w /\
  pAutoSnapshot w' = pAutoSnapshot w /\
  recursionGuard w' = false.
Proof.
  intros Hg Hp Hs w'. subst w'.
  rewrite (checkHashes_both_drifted p s cb w Hg Hp Hs).
  repeat split.
  - rewrite (storedHash_ext p _ (putStored s (computedHash s w)
               (putStored p (computedHash p w) w))) by reflexivity.
    rewrite !storedHash_putStored.
    destruct (decide (s = p)) as [->|Hne]; [reflexivity |].
    destruct (decide (p = p)); [reflexivity | contradiction].
  - rewrite (storedHash_ext s _ (putStored s (computedHash s w)
               (putStored p (computedHash p w) w))) by reflexivity.
    rewrite storedHash_putStored.
    destruct (decide (s = s)); [reflexivity | contradiction].
  - intros cb'. apply checkHashes_both_drifted; assumption.
  - cbn. rewrite <- !app_assoc. reflexivity.
  - unfold launches; cbn. rewrite !List.filter_app, !hashErrors_not_start; cbn.
    now rewrite !app_nil_r.
Qed.

(** ** The lockfile-update handler *)

Lemma onLockfileUpdate_failed (o n : string) (w : World) :
  rsPendingRestoreActions w = None ->
  onLockfileUpdate o n w = (tt, emit (EffLogError ErrPendingRestoreActions) w).
Proof. intros H. unfold onLockfileUpdate, bind, gets; cbn [fst snd]. now rewrite H. Qed.

Lemma onLockfileUpdate_none_pending (o n : string) (w : World) :
  rsPendingRestoreActions w = Some [] ->
  onLockfileUpdate o n w = (tt, putStored HASH_TYPE_LOCKFILE n w).
Proof. intros H. unfold onLockfileUpdate, bind, gets; cbn [fst snd]. now rewrite H. Qed.

Lemma onLockfileUpdate_pending (o n : string) (w : World) (actions : SEXP) :
  rsPendingRestoreActions w = Some actions -> actions <> [] ->
  onLockfileUpdate o n w =
  (tt, emit (EffEnqueClientEvent (kPackratRestoreNeeded actions)) w).
Proof.
  intros H Hne. unfold onLockfileUpdate, bind, gets; cbn [fst snd]. rewrite H.
  destruct actions; [contradiction | reflexivity].
Qed.

(** C1 (as amended): when the lockfile has drifted, the library has not and
    the pending-restore-actions query fails, the failure is logged and the
    handler returns: the store is left as it was, nothing is sent to the
    client, and the stored lockfile hash still differs from the computed
    one. *)
Theorem lockfile_query_failure_keeps_hash (w : World) :
  recursionGuard w = false ->
  storedHash HASH_TYPE_LOCKFILE w <> computedHash HASH_TYPE_LOCKFILE w ->
  storedHash HASH_TYPE_LIBRARY w = computedHash HASH_TYPE_LIBRARY w ->
  rsPendingRestoreActions w = None ->
  let w' := exec (checkHashes HASH_TYPE_LOCKFILE HASH_TYPE_LIBRARY onLockfileUpdate) w in
  projectPersistent w' = projectPersistent w /\
  effects w' =
    effects w ++ hashErrors HASH_TYPE_LOCKFILE w ++
    [EffLogError ErrPendingRestoreActions] /\
  storedHash HASH_TYPE_LOCKFILE w' = storedHash HASH_TYPE_LOCKFILE w /\
  storedHash HASH_TYPE_LOCKFILE w' <> computedHash HASH_TYPE_LOCKFILE w'.
Proof.
  intros Hg Hp Hs Hq w'. subst w'.
  rewrite checkHashes_primary_only by assumption.
  unfold exec. rewrite onLockfileUpdate_failed by exact Hq.
  assert (Hst : forall X, projectPersistent X = projectPersistent w ->
                storedHash HASH_TYPE_LOCKFILE X = storedHash HASH_TYPE_LOCKFILE w)
    by (intros X HX; now apply storedHash_ext).
  repeat split.
  - cbn. now rewrite app_nil_r, <- app_assoc.
  - now apply Hst.
  - rewrite Hst by reflexivity.
    now rewrite (computedHash_ext HASH_TYPE_LOCKFILE _ w) by reflexivity.
Qed.

(** C6: when the lockfile has drifted, the library has not and the
    pending-restore-actions query answers: with a non-empty answer the store
    is left as it was and one restore-needed event carrying the actions is
    queued; with the empty answer the stored lockfile hash becomes the
    computed one and no event is queued. *)
Theorem lockfile_restore_needed_gating (w : World) (actions : SEXP) :
  recursionGuard w = false ->
  storedHash HASH_TYPE_LOCKFILE w <> computedHash HASH_TYPE_LOCKFILE w ->
  storedHash HASH_TYPE_LIBRARY w = computedHash HASH_TYPE_LIBRARY w ->
  rsPendingRestoreActions w = Some actions ->
  let w' := exec (checkHashes HASH_TYPE_LOCKFILE HASH_TYPE_LIBRARY onLockfileUpdate) w in
  (actions <> [] ->
     projectPersistent w' = projectPersistent w /\
     storedHash HASH_TYPE_LOCKFILE w' = storedHash HASH_TYPE_LOCKFILE w /\
     effects w' =
       effects w ++ hashErrors HASH_TYPE_LOCKFILE w ++
       [EffEnqueClientEvent (kPackratRestoreNeeded actions)]) /\
  (actions = [] ->
     storedHash HASH_TYPE_LOCKFILE w' = computedHash HASH_TYPE_LOCKFILE w /\
     storedHash HASH_TYPE_LIBRARY w' = storedHash HASH_TYPE_LIBRARY w /\
     effects w' =
       effects w ++ hashErrors HASH_TYPE_LOCKFILE w ++
       [EffPutProjectPersistent "packrat" "packratLockfileHash"
          (computedHash HASH_TYPE_LOCKFILE w)]).
Proof.
  intros Hg Hp Hs Hq w'. subst w'.
  rewrite checkHashes_primary_only by assumption.
  unfold exec. split.
  - intros Hne. rewrite (onLockfileUpdate_pending _ _ _ actions) by assumption.
    repeat split.
    + now apply storedHash_ext.
    + cbn. now rewrite app_nil_r, <- app_assoc.
  - intros ->. rewrite onLockfileUpdate_none_pending by exact Hq.
    cbn [snd]. repeat split.
    + rewrite (storedHash_ext _ _ (putStored HASH_TYPE_LOCKFILE
                 (computedHash HASH_TYPE_LOCKFILE w) w)) by reflexivity.
      now rewrite storedHash_putStored.
    + rewrite (storedHash_ext _ _ (putStored HASH_TYPE_LOCKFILE
                 (computedHash HASH_TYPE_LOCKFILE w) w)) by reflexivity.
      now rewrite storedHash_putStored.
    + cbn. now rewrite app_nil_r, <- app_assoc.
Qed.

(** ** The recursion guard *)

Lemma onFileChanged_dropped (path : FilePath) (w : World) :
  recursionGuard w = true -> onFileChanged path w = (tt, w).
Proof.
  intros Hg. unfold onFileChanged, bind, gets; cbn [fst snd].
  repeat match goal with
         | |- (if ?c then _ else _) w = _ => destruct c
         end;
    first [reflexivity | now apply checkHashes_dropped].
Qed.

Lemma onFilesChanged_dropped (changes : list FilePath) (w : World) :
  recursionGuard w = true -> onFilesChanged changes w = (tt, w).
Proof.
  intros Hg. induction changes as [|path rest IH]; [reflexivity |].
  cbn [onFilesChanged]. unfold bind. rewrite (onFileChanged_dropped path w Hg).
  exact IH.
Qed.

Lemma callbackWorld_guarded (p s : PackratHashType) (w : World) :
  recursionGuard (callbackWorld p s w) = true.
Proof. reflexivity. Qed.

(** C9: a reconciliation pass entered while a pass is in progress does
    nothing at all: it returns the world it was given, whatever its
    arguments; so do the file-change events delivered meanwhile.  Hence a
    pass whose callback, having done its own work, synchronously delivers
    file-change events and asks for another pass ends exactly as the pass
    without them, provided the callback leaves the guard alone. *)
Theorem checkHashes_guard_exclusion
    (p s : PackratHashType) (cb : string -> string -> M unit) (w : World) :
  (recursionGuard w = true ->
     checkHashes p s cb w = (tt, w) /\
     forall changes, onFilesChanged changes w = (tt, w)) /\
  ((forall o n w0, recursionGuard w0 = true -> recursionGuard (exec (cb o n) w0) = true) ->
   forall changes p' s' cb',
     exec (checkHashes p s
             (fun o n => cb o n ;;; onFilesChanged changes ;;; checkHashes p' s' cb')) w =
     exec (checkHashes p s cb) w).
Proof.
  split.
  - intros Hg. split.
    + now apply checkHashes_dropped.
    + intros changes. now apply onFilesChanged_dropped.
  - intros Hcb changes p' s' cb'. apply checkHashes_callback_ext.
    intros o n. unfold exec, bind.
    pose proof (Hcb o n _ (callbackWorld_guarded p s w)) as Hg'. unfold exec in Hg'.
    rewrite (onFilesChanged_dropped changes _ Hg'). cbn [fst snd].
    now rewrite (checkHashes_dropped p' s' cb' _ Hg').
Qed.

(** ** Routing file changes *)

Lemma filename_lockfilePath (w : World) : filename (lockfilePath w) = "packrat.lock".
Proof.
  unfold filename, lockfilePath, complete.
  change ["packrat"; "packrat.lock"] with (["packrat"] ++ ["packrat.lock"]).
  rewrite app_assoc. apply List.last_last.
Qed.

(** C2 (as amended): a file-change event is handed to lockfile
    reconciliation exactly when the last element of its path is
    [packrat.lock], wherever the file lies; the project's own lockfile is
    such a path.  Any other event is ignored or handed to library
    reconciliation. *)
Theorem onFileChanged_lockfile_dispatch (path : FilePath) (w : World) :
  (filename path = "packrat.lock" ->
     onFileChanged path w =
     checkHashes HASH_TYPE_LOCKFILE HASH_TYPE_LIBRARY onLockfileUpdate w) /\
  (filename path <> "packrat.lock" ->
     onFileChanged path w = (tt, w) \/
     onFileChanged path w =
     checkHashes HASH_TYPE_LIBRARY HASH_TYPE_LOCKFILE onLibraryUpdate w) /\
  onFileChanged (lockfilePath w) w =
    checkHashes HASH_TYPE_LOCKFILE HASH_TYPE_LIBRARY onLockfileUpdate w.
Proof.
  assert (Hyes : forall q, filename q = "packrat.lock" ->
            onFileChanged q w =
            checkHashes HASH_TYPE_LOCKFILE HASH_TYPE_LIBRARY onLockfileUpdate w).
  { intros q Hq. unfold onFileChanged, bind, gets; cbn [fst snd].
    rewrite Hq. reflexivity. }
  split; [apply Hyes | split].
  - intros Hne. apply String.eqb_neq in Hne.
    unfold onFileChanged, bind, gets; cbn [fst snd]. rewrite Hne.
    repeat match goal with
           | |- (if ?c then _ else _) w = _ \/ _ => destruct c
           end; auto.
  - apply Hyes, filename_lockfilePath.
Qed.

(** ** The snapshot scheduler *)

Lemma AutoSnapshot_create_run (dir : FilePath) (h : string) (w : World) :
  AutoSnapshot_create dir h w =
  ({| targetHash_ := h; isRunning_ := true |},
   emits (snapshotCmdErrors w ++ [EffProcessStart (snapshotCmd w) dir h]) w).
Proof.
  unfold AutoSnapshot_create, snapshotCmdErrors, snapshotCmd, LOG_ERROR, emit,
    bind, gets, modify, ret; cbn [fst snd].
  destruct (rsGetAutoSnapshotCmd w) eqn:E; cbn -[emits].
  - reflexivity.
  - now rewrite emits_emits.
Qed.

Lemma performAutoSnapshot_idle (h : string) (w : World) :
  snapshotIdle w -> performAutoSnapshot h w = (tt, startedWorld h w).
Proof.
  unfold snapshotIdle, performAutoSnapshot, startedWorld, bind, gets, modify;
    cbn [fst snd].
  destruct (pAutoSnapshot w) as [a|]; [intros -> |intros _];
    now rewrite AutoSnapshot_create_run.
Qed.

Lemma performAutoSnapshot_same (h : string) (w : World) :
  snapshotRunning h w -> performAutoSnapshot h w = (tt, w).
Proof.
  unfold snapshotRunning, performAutoSnapshot, bind, gets; cbn [fst snd].
  intros ->; cbn. now rewrite String.eqb_refl.
Qed.

Lemma performAutoSnapshot_other (h1 h2 : string) (w : World) :
  snapshotRunning h1 w -> h2 <> h1 ->
  performAutoSnapshot h2 w =
  (tt, set_pendingSnapshots (int_wrap (pendingSnapshots w + 1)) w).
Proof.
  unfold snapshotRunning, performAutoSnapshot, bind, gets; cbn [fst snd].
  intros -> Hne; cbn.
  assert (E : String.eqb h1 h2 = false) by (apply String.eqb_neq; congruence).
  now rewrite E.
Qed.

Lemma int_wrap_succ (n : Z) :
  (0 <= n < INT_MAX)%Z -> int_wrap (n + 1) = (n + 1)%Z.
Proof.
  unfold int_wrap, INT_MAX. intros H.
  rewrite Z.mod_small by lia. lia.
Qed.

Lemma onCompleted_failed (exitStatus : Z) (w : World) :
  exitStatus <> 0%Z -> onCompleted exitStatus w = (tt, w).
Proof.
  intros H. unfold onCompleted. apply Z.eqb_neq in H. now rewrite H.
Qed.

Lemma onCompleted_pending (w : World) :
  (0 < pendingSnapshots w)%Z ->
  onCompleted 0 w =
  performAutoSnapshot (computedHash HASH_TYPE_LIBRARY w) (set_pendingSnapshots 0 w).
Proof.
  intros H. unfold onCompleted, pendingSnapshot; cbn [Z.eqb negb].
  mrun w. apply Z.ltb_lt in H. rewrite H. mrun w. reflexivity.
Qed.

Lemma onCompleted_caught_up (w : World) :
  (pendingSnapshots w <= 0)%Z ->
  exec (onCompleted 0) w =
  emit (EffEnqueClientEvent kInstalledPackagesChanged)
    (putStored HASH_TYPE_LIBRARY (computedHash HASH_TYPE_LIBRARY w)
       (putStored HASH_TYPE_LOCKFILE (computedHash HASH_TYPE_LOCKFILE w)
          (emits (hashErrors HASH_TYPE_LOCKFILE w) w))).
Proof.
  intros H. unfold onCompleted, pendingSnapshot, enqueClientEvent; cbn [Z.eqb negb].
  mrun w. apply Z.ltb_ge in H. rewrite H. mrun w. reflexivity.
Qed.

Lemma onProcessCompleted_run (exitStatus : Z) (w : World) :
  onProcessCompleted exitStatus w =
  match pAutoSnapshot w with
  | Some _ => onCompleted exitStatus (exitedWorld w)
  | None => (tt, w)
  end.
Proof.
  unfold onProcessCompleted, exitedWorld, bind, gets, modify; cbn [fst snd].
  destruct (pAutoSnapshot w); reflexivity.
Qed.

Lemma onProcessCompleted_running (h : string) (exitStatus : Z) (w : World) :
  snapshotRunning h w ->
  onProcessCompleted exitStatus w =
  onCompleted exitStatus
    (set_pAutoSnapshot (Some {| targetHash_ := h; isRunning_ := false |}) w).
Proof.
  unfold snapshotRunning. intros Hrun.
  rewrite onProcessCompleted_run. unfold exitedWorld. rewrite !Hrun. reflexivity.
Qed.

Lemma snapshotCmdErrors_not_start (w : World) :
  List.filter isProcessStart (snapshotCmdErrors w) = [].
Proof. unfold snapshotCmdErrors. destruct (rsGetAutoSnapshotCmd w); reflexivity. Qed.

Lemma launches_startedWorld (h : string) (w : World) :
  launches (startedWorld h w) = S (launches w).
Proof.
  unfold launches, startedWorld; cbn.
  rewrite !List.filter_app, snapshotCmdErrors_not_start; cbn.
  rewrite List.length_app; cbn. lia.
Qed.

(** C5: while a snapshot aiming at [h1] is in flight, a request for the
    same [h1] returns the world it was given: no process is started and the
    pending count is not touched.  Two requests for [h1] in a row, the first
    one finding the scheduler idle, start exactly one process between
    them. *)
Theorem performAutoSnapshot_coalesces (h1 : string) (w : World) :
  (snapshotRunning h1 w -> performAutoSnapshot h1 w = (tt, w)) /\
  (snapshotIdle w ->
     let w1 := exec (performAutoSnapshot h1) w in
     let w2 := exec (performAutoSnapshot h1) w1 in
     snapshotRunning h1 w1 /\
     launches w1 = S (launches w) /\
     w2 = w1 /\
     launches w2 = S (launches w) /\
     pendingSnapshots w2 = pendingSnapshots w).
Proof.
  split; [apply performAutoSnapshot_same |].
  intros Hidle w1 w2. subst w2 w1. unfold exec.
  rewrite (performAutoSnapshot_idle h1 w Hidle); cbn [snd].
  assert (Hrun : snapshotRunning h1 (startedWorld h1 w)) by reflexivity.
  rewrite (performAutoSnapshot_same h1 _ Hrun); cbn [snd].
  repeat split; apply launches_startedWorld.
Qed.

(** C4: a snapshot aiming at [h1] is in flight and a request for another
    hash [h2] arrives: the pending count goes up by one and nothing else
    happens.  Whatever becomes of the disk meanwhile, when the [h1] run then
    exits with status zero exactly one process is started, it aims at the
    library hash computed from the disk as it is at that moment, and the
    pending count is zero again.  The count is a C++ [int] and is taken to
    be in the range where [++] does not overflow. *)
Theorem pending_snapshot_follow_up
    (h1 h2 : string) (e : Environment) (w : World) :
  snapshotRunning h1 w ->
  h2 <> h1 ->
  (0 <= pendingSnapshots w < INT_MAX)%Z ->
  let w1 := exec (performAutoSnapshot h2) w in
  let w2 := set_environment e w1 in
  let w3 := exec (onProcessCompleted 0) w2 in
  (pendingSnapshots w1 = (pendingSnapshots w + 1)%Z /\
   effects w1 = effects w /\
   pAutoSnapshot w1 = pAutoSnapshot w) /\
  launches w3 = S (launches w2) /\
  snapshotRunning (computedHash HASH_TYPE_LIBRARY w2) w3 /\
  effects w3 =
    effects w2 ++ snapshotCmdErrors w2 ++
    [EffProcessStart (snapshotCmd w2) (projectDirectory w2)
       (computedHash HASH_TYPE_LIBRARY w2)] /\
  pendingSnapshots w3 = 0%Z /\
  projectPersistent w3 = projectPersistent w.
Proof.
  intros Hrun Hne Hn w1 w2 w3. subst w3 w2 w1. unfold exec.
  rewrite (performAutoSnapshot_other h1 h2 w Hrun Hne), int_wrap_succ by exact Hn.
  cbn [snd]. split; [repeat split |].
  rewrite (onProcessCompleted_running h1) by exact Hrun.
  rewrite onCompleted_pending by (cbn; lia).
  rewrite performAutoSnapshot_idle by reflexivity.
  cbn [snd].
  set (w2 := set_environment e (set_pendingSnapshots (pendingSnapshots w + 1) w)).
  rewrite (computedHash_ext HASH_TYPE_LIBRARY _ w2) by reflexivity.
  repeat split.
  rewrite launches_startedWorld. reflexivity.
Qed.

(** C7: when the snapshot in flight exits with status zero and the pending
    count is zero, the stored lockfile and library hashes become the hashes
    computed from the disk at that moment, one installed-packages-changed
    event is queued, and no process is started: the scheduler is idle. *)
Theorem snapshot_completed_caught_up (h : string) (w : World) :
  snapshotRunning h w ->
  pendingSnapshots w = 0%Z ->
  let w' := exec (onProcessCompleted 0) w in
  storedHash HASH_TYPE_LIBRARY w' = computedHash HASH_TYPE_LIBRARY w /\
  storedHash HASH_TYPE_LOCKFILE w' = computedHash HASH_TYPE_LOCKFILE w /\
  effects w' =
    effects w ++ hashErrors HASH_TYPE_LOCKFILE w ++
    [EffPutProjectPersistent "packrat" "packratLockfileHash"
       (computedHash HASH_TYPE_LOCKFILE w);
     EffPutProjectPersistent "packrat" "packratLibraryHash"
       (computedHash HASH_TYPE_LIBRARY w);
     EffEnqueClientEvent kInstalledPackagesChanged] /\
  launches w' = launches w /\
  pAutoSnapshot w' = Some {| targetHash_ := h; isRunning_ := false |} /\
  pendingSnapshots w' = 0%Z.
Proof.
  intros Hrun Hn w'. subst w'. unfold exec.
  rewrite onProcessCompleted_run, Hrun.
  assert (Hex : exitedWorld w =
                set_pAutoSnapshot (Some {| targetHash_ := h; isRunning_ := false |}) w)
    by (unfold exitedWorld; rewrite Hrun; reflexivity).
  rewrite Hex. fold (exec (onCompleted 0)
    (set_pAutoSnapshot (Some {| targetHash_ := h; isRunning_ := false |}) w)).
  rewrite onCompleted_caught_up by (cbn; lia).
  reads_at w.
  rewrite (storedHash_ext HASH_TYPE_LIBRARY _
             (putStored HASH_TYPE_LIBRARY (computedHash HASH_TYPE_LIBRARY w)
                (putStored HASH_TYPE_LOCKFILE (computedHash HASH_TYPE_LOCKFILE w) w)))
    by reflexivity.
  rewrite (storedHash_ext HASH_TYPE_LOCKFILE _
             (putStored HASH_TYPE_LIBRARY (computedHash HASH_TYPE_LIBRARY w)
                (putStored HASH_TYPE_LOCKFILE (computedHash HASH_TYPE_LOCKFILE w) w)))
    by reflexivity.
  rewrite !storedHash_putStored. cbn [decide].
  repeat split.
  - cbn -[hashErrors]. now rewrite <- !app_assoc.
  - unfold launches; cbn -[hashErrors].
    rewrite !List.filter_app, hashErrors_not_start; cbn.
    now rewrite !app_nil_r.
  - exact Hn.
Qed.

(** C8: when a snapshot exits with a status other than zero, [onCompleted]
    returns the world it was given: nothing is stored, nothing is sent to the
    client, no process is started and the pending count stays.  All that the
    exit leaves behind is that the snapshot is no longer running. *)
Theorem snapshot_failed_no_action (h : string) (exitStatus : Z) (w : World) :
  exitStatus <> 0%Z ->
  onCompleted exitStatus w = (tt, w) /\
  (snapshotRunning h w ->
     let w' := exec (onProcessCompleted exitStatus) w in
     projectPersistent w' = projectPersistent w /\
     effects w' = effects w /\
     launches w' = launches w /\
     pendingSnapshots w' = pendingSnapshots w /\
     pAutoSnapshot w' = Some {| targetHash_ := h; isRunning_ := false |}).
Proof.
  intros Hexit. split; [now apply onCompleted_failed |].
  intros Hrun w'. subst w'. unfold exec.
  rewrite onProcessCompleted_run, Hrun, onCompleted_failed by exact Hexit.
  unfold exitedWorld; rewrite Hrun. repeat split.
Qed.

(** C10: a request queued while the [h1] run is in flight stays counted
    when that run exits with a status other than zero.  The next snapshot,
    started for [h3], then exits with status zero with no request having
    arrived while it ran: all the same one more process is started, aiming
    at the library hash computed from the disk at that moment, the count
    goes back to zero, and no hash has been stored.  The disk is free to
    change between the steps; the count is in the range where [++] does not
    overflow. *)
Theorem failed_snapshot_keeps_pending
    (h1 h2 h3 : string) (exitStatus : Z) (e1 e2 e3 : Environment) (w : World) :
  snapshotRunning h1 w ->
  h2 <> h1 ->
  (0 <= pendingSnapshots w < INT_MAX)%Z ->
  exitStatus <> 0%Z ->
  let w1 := exec (performAutoSnapshot h2) w in
  let w2 := exec (onProcessCompleted exitStatus) (set_environment e1 w1) in
  let w3 := exec (performAutoSnapshot h3) (set_environment e2 w2) in
  let w3' := set_environment e3 w3 in
  let w4 := exec (onProcessCompleted 0) w3' in
  pendingSnapshots w2 = (pendingSnapshots w + 1)%Z /\
  launches w2 = launches w /\
  snapshotRunning h3 w3 /\
  pendingSnapshots w3 = (pendingSnapshots w + 1)%Z /\
  launches w4 = S (launches w3') /\
  snapshotRunning (computedHash HASH_TYPE_LIBRARY w3') w4 /\
  pendingSnapshots w4 = 0%Z /\
  projectPersistent w4 = projectPersistent w.
Proof.
  intros Hrun Hne Hn Hexit w1 w2 w3 w3' w4.
  assert (E1 : w1 = set_pendingSnapshots (pendingSnapshots w + 1) w).
  { subst w1. unfold exec.
    now rewrite (performAutoSnapshot_other h1 h2 w Hrun Hne), int_wrap_succ by exact Hn. }
  assert (E2 : w2 = set_pAutoSnapshot (Some {| targetHash_ := h1; isRunning_ := false |})
                      (set_environment e1 w1)).
  { subst w2. unfold exec.
    rewrite (onProcessCompleted_running h1) by (rewrite E1; exact Hrun).
    now rewrite onCompleted_failed by exact Hexit. }
  assert (E3 : w3 = startedWorld h3 (set_environment e2 w2)).
  { subst w3. unfold exec. rewrite performAutoSnapshot_idle; [reflexivity |].
    rewrite E2. reflexivity. }
  assert (E4 : w4 = startedWorld (computedHash HASH_TYPE_LIBRARY w3')
                      (set_pendingSnapshots 0
                         (set_pAutoSnapshot
                            (Some {| targetHash_ := h3; isRunning_ := false |}) w3'))).
  { subst w4. unfold exec.
    rewrite (onProcessCompleted_running h3) by (subst w3'; rewrite E3; reflexivity).
    rewrite onCompleted_pending
      by (subst w3'; rewrite E3, E2, E1; cbn; lia).
    rewrite performAutoSnapshot_idle by reflexivity.
    cbn [snd]. f_equal. apply computedHash_ext; reflexivity. }
  split; [rewrite E2, E1; reflexivity |].
  split; [rewrite E2, E1; reflexivity |].
  split; [rewrite E3; reflexivity |].
  split; [rewrite E3, E2, E1; reflexivity |].
  split; [rewrite E4, launches_startedWorld; reflexivity |].
  split; [rewrite E4; reflexivity |].
  split; [rewrite E4; reflexivity |].
  rewrite E4. subst w3'. rewrite E3, E2, E1. reflexivity.
Qed.

(** ** More on the hashes *)

Lemma string_append_assoc (a b c : string) :
  String.append (String.append a b) c = String.append a (String.append b c).
Proof.
  induction a as [|x a IH]; [reflexivity |].
  change (String x (String.append (String.append a b) c) =
          String x (String.append a (String.append b c))).
  now rewrite IH.
Qed.

Lemma string_append_nil_r (a : string) : String.append a "" = a.
Proof.
  induction a as [|x a IH]; [reflexivity |].
  change (String x (String.append a "") = String x a). now rewrite IH.
Qed.

Lemma fold_addDescContent (fs : FileSystem) (paths : list FilePath) (acc : string) :
  fold_left (fun acc path => addDescContent fs path acc) paths acc =
  String.append acc
    (fold_right String.append ""
       (map (descText fs)
          (List.filter (fun path => String.eqb (filename path) "DESCRIPTION") paths))).
Proof.
  revert acc. induction paths as [|path paths IH]; intros acc; cbn.
  - now rewrite string_append_nil_r.
  - rewrite IH. unfold addDescContent.
    destruct (String.eqb (filename path) "DESCRIPTION"); cbn; [| reflexivity].
    now rewrite string_append_assoc.
Qed.

Lemma path_eqb_eq (p q : FilePath) : path_eqb p q = true <-> p = q.
Proof.
  revert q. induction p as [|a p IH]; intros [|b q]; cbn; split; try congruence; try reflexivity.
  - intros H. apply andb_prop in H as [Hab Hpq].
    apply String.eqb_eq in Hab. apply IH in Hpq. congruence.
  - intros [= -> ->]. rewrite String.eqb_refl. now apply IH.
Qed.

Lemma fsLookup_insert_other (fs1 fs2 : FileSystem) (p q : FilePath) (e : FsEntry) :
  p <> q -> fsLookup (fs1 ++ (p, e) :: fs2) q = fsLookup (fs1 ++ fs2) q.
Proof.
  intros Hne. induction fs1 as [|[r e'] fs1 IH]; cbn.
  - destruct (path_eqb p q) eqn:E; [| reflexivity].
    apply path_eqb_eq in E. contradiction.
  - now rewrite IH.
Qed.

(** X1: a hash stored with [setStoredHash] is the one [getStoredHash] reads
    back for that artifact, the stored hash of the other artifact is the
    same as before, and the write is the only effect. *)
Theorem stored_hash_round_trip (t t' : PackratHashType) (h : string) (w : World) :
  let w' := exec (setStoredHash t h) w in
  fst (getStoredHash t w') = h /\
  (t' <> t -> fst (getStoredHash t' w') = fst (getStoredHash t' w)) /\
  effects w' = effects w ++ [EffPutProjectPersistent "packrat" (keyOfHashType t) h] /\
  snd (getStoredHash t w') = w'.
Proof.
  intros w'. subst w'. unfold exec. rewrite setStoredHash_run; cbn [snd].
  rewrite !getStoredHash_run; cbn [fst snd].
  repeat split.
  - rewrite storedHash_putStored. destruct (decide (t = t)); [reflexivity | contradiction].
  - intros Hne. fold (storedHash t' (putStored t h w)) (storedHash t' w).
    rewrite storedHash_putStored. destruct (decide (t = t')); [congruence | reflexivity].
Qed.

(** X2: [getStoredHash] reads the empty hash when the key is absent from
    the store and when it holds a JSON value that is not a string; it never
    changes anything. *)
Theorem stored_hash_default (t : PackratHashType) (w : World) :
  snd (getStoredHash t w) = w /\
  (projectPersistent w !! ("packrat", keyOfHashType t) = None ->
     fst (getStoredHash t w) = "") /\
  (forall v, projectPersistent w !! ("packrat", keyOfHashType t) = Some v ->
     (forall s, v <> JsonString s) -> fst (getStoredHash t w) = "") /\
  (forall s, projectPersistent w !! ("packrat", keyOfHashType t) = Some (JsonString s) ->
     fst (getStoredHash t w) = s).
Proof.
  rewrite getStoredHash_run; cbn [fst snd]. rewrite storedHash_lookup.
  split; [reflexivity |]. split; [intros ->; reflexivity |]. split.
  - intros v -> Hv. destruct v; try reflexivity. now destruct (Hv s).
  - intros s ->. reflexivity.
Qed.

(** X3: [computeLockfileHash] answers the empty hash without logging when
    the lockfile does not exist, the empty hash with exactly one logged
    error when it exists and cannot be read, and the checksum of its content
    without logging when it can; in every case the log is all it changes. *)
Theorem computeLockfileHash_cases (w : World) :
  (pathExists (fileSystem w) (lockfilePath w) = false ->
     computeLockfileHash w = ("", w)) /\
  (pathExists (fileSystem w) (lockfilePath w) = true ->
   readStringFromFile (fileSystem w) (lockfilePath w) = None ->
     computeLockfileHash w = ("", emit (EffLogError ErrReadLockfile) w)) /\
  (forall content,
     readStringFromFile (fileSystem w) (lockfilePath w) = Some content ->
     computeLockfileHash w = (crc32HexHash content, w)).
Proof.
  unfold computeLockfileHash, lockfilePath, complete, bind, gets; cbn [fst snd].
  split; [| split].
  - intros ->. reflexivity.
  - intros -> ->. reflexivity.
  - intros content Hr.
    assert (He : pathExists (fileSystem w) (projectDirectory w ++ ["packrat"; "packrat.lock"]) = true).
    { unfold pathExists. unfold readStringFromFile in Hr.
      destruct (fsLookup _ _); [reflexivity | discriminate]. }
    rewrite He, Hr. reflexivity.
Qed.

(** X4: the library hash is the checksum of the texts of the DESCRIPTION
    files below [packrat/lib], taken in traversal order and with nothing for
    a file that cannot be read; it is the empty hash when that text is empty
    (no such file, or only empty and unreadable ones).  Computing it logs
    nothing and changes nothing. *)
Theorem computeLibraryHash_content (w : World) :
  computeLibraryHash w =
  (if String.eqb (libraryDescContent w) "" then ""
   else crc32HexHash (libraryDescContent w), w).
Proof.
  unfold computeLibraryHash, libraryDescContent, descContentOf, descFilesOf, bind, gets;
    cbn [fst snd].
  rewrite fold_addDescContent. cbn [String.append].
  destruct (String.eqb _ ""); reflexivity.
Qed.

Lemma descContentOf_insert
    (dir : FilePath) (fs1 fs2 : FileSystem) (path : FilePath) (e : FsEntry) :
  filename path <> "DESCRIPTION" \/
  isWithin path (complete dir ["packrat"; "lib"]) = false ->
  descContentOf dir (fs1 ++ (path, e) :: fs2) = descContentOf dir (fs1 ++ fs2).
Proof.
  intros Hout. unfold descContentOf.
  set (lib := complete dir ["packrat"; "lib"]) in *.
  assert (Hfiles : descFilesOf dir (fs1 ++ (path, e) :: fs2) = descFilesOf dir (fs1 ++ fs2)).
  { unfold descFilesOf, childrenRecursive. fold lib.
    rewrite !List.filter_app, !List.map_app, !List.filter_app.
    cbn [List.filter map fst app].
    destruct (isWithin path lib) eqn:Hw; cbn [andb]; [| reflexivity].
    destruct (negb (path_eqb path lib)); cbn [List.filter map fst app]; [| reflexivity].
    destruct Hout as [Hn | Hn]; [| discriminate].
    apply String.eqb_neq in Hn. now rewrite Hn. }
  rewrite Hfiles. f_equal. apply List.map_ext_in.
  intros q Hq. unfold descFilesOf, childrenRecursive in Hq. fold lib in Hq.
  apply List.filter_In in Hq as [Hq Hd].
  apply List.in_map_iff in Hq as [[q' e'] [Hq' Hin]]. cbn in Hq'. subst q'.
  apply List.filter_In in Hin as [_ Hwq]. cbn in Hwq.
  apply andb_prop in Hwq as [Hwq _].
  unfold descText, readStringFromFile.
  rewrite fsLookup_insert_other; [reflexivity |].
  intros ->. destruct Hout as [Hn | Hn].
  - apply String.eqb_eq in Hd. contradiction.
  - rewrite Hn in Hwq. discriminate.
Qed.

(** X5: the library hash does not see a new entry of the disk that is not
    named DESCRIPTION, nor one that lies outside [packrat/lib], wherever in
    the traversal it comes. *)
Theorem library_hash_ignores_other_files
    (i : nat) (path : FilePath) (e : FsEntry) (w : World) :
  filename path <> "DESCRIPTION" \/
  isWithin path (complete (projectDirectory w) ["packrat"; "lib"]) = false ->
  computedHash HASH_TYPE_LIBRARY (withFile i path e w) = computedHash HASH_TYPE_LIBRARY w.
Proof.
  intros Hout.
  assert (Hc : libraryDescContent (withFile i path e w) = libraryDescContent w).
  { unfold libraryDescContent, withFile;
      cbn [projectDirectory fileSystem set_environment envFileSystem].
    rewrite descContentOf_insert by exact Hout.
    now rewrite List.firstn_skipn. }
  unfold computedHash, getComputedHash. rewrite !computeLibraryHash_content; cbn [fst].
  now rewrite Hc.
Qed.

(** X6: a pass that finds the stored and the computed hash of the primary
    artifact equal does not look further: whatever the callback and the
    secondary artifact, the store and the scheduler are as before and the
    only entry it can leave is the log of an unreadable lockfile. *)
Theorem checkHashes_in_sync_noop
    (p s : PackratHashType) (cb : string -> string -> M unit) (w : World) :
  recursionGuard w = false ->
  storedHash p w = computedHash p w ->
  let w' := exec (checkHashes p s cb) w in
  projectPersistent w' = projectPersistent w /\
  effects w' = effects w ++ hashErrors p w /\
  pendingSnapshots w' = pendingSnapshots w /\
  pAutoSnapshot w' = pAutoSnapshot w /\
  recursionGuard w' = false.
Proof.
  intros Hg Hp w'. subst w'. rewrite checkHashes_in_sync by assumption.
  repeat split.
Qed.

(** ** The scheduler over whole histories *)

Lemma launches_putStored (t : PackratHashType) (h : string) (w : World) :
  launches (putStored t h w) = launches w.
Proof.
  unfold launches, putStored, emit, emits; cbn.
  rewrite List.filter_app; cbn. now rewrite app_nil_r.
Qed.

Lemma launches_emit (e : Effect) (w : World) :
  isProcessStart e = false -> launches (emit e w) = launches w.
Proof.
  intros He. unfold launches, emit, emits; cbn.
  rewrite List.filter_app; cbn. rewrite He. now rewrite app_nil_r.
Qed.

Lemma launches_hashErrors (t : PackratHashType) (w0 w : World) :
  launches (emits (hashErrors t w0) w) = launches w.
Proof. rewrite launches_emits, hashErrors_not_start; cbn. lia. Qed.

Lemma sched_callbackWorld (p s : PackratHashType) (w : World) :
  sched (callbackWorld p s w) = sched w.
Proof.
  unfold sched, callbackWorld. rewrite !launches_hashErrors. reflexivity.
Qed.

(** A pass leaves the scheduler alone, or leaves it the way its callback,
    run in [callbackWorld], left it. *)
Lemma checkHashes_sched (p s : PackratHashType) (cb : string -> string -> M unit) (w : World) :
  sched (exec (checkHashes p s cb) w) = sched w \/
  sched (exec (checkHashes p s cb) w) =
  sched (exec (cb (storedHash p w) (computedHash p w)) (callbackWorld p s w)).
Proof.
  destruct (recursionGuard w) eqn:Hg.
  - left. unfold exec. now rewrite checkHashes_dropped.
  - destruct (String.eqb_spec (storedHash p w) (computedHash p w)) as [Hp|Hp].
    + left. rewrite checkHashes_in_sync by assumption.
      unfold sched. cbn [pAutoSnapshot pendingSnapshots set_recursionGuard emits].
      f_equal. f_equal. change (launches (emits (hashErrors p w) (set_recursionGuard true w)) = launches w).
      now rewrite launches_hashErrors.
    + destruct (String.eqb_spec (storedHash s w) (computedHash s w)) as [Hs|Hs].
      * right. now rewrite checkHashes_primary_only by assumption.
      * left. rewrite checkHashes_both_drifted by assumption.
        rewrite <- (sched_callbackWorld p s w).
        unfold sched. f_equal. f_equal.
        change (launches (putStored s (computedHash s w)
                  (emits (hashErrors s w)
                     (putStored p (computedHash p w) (callbackWorld p s w)))) =
                launches (callbackWorld p s w)).
        now rewrite launches_putStored, launches_hashErrors, launches_putStored.
Qed.

Lemma checkHashes_guard (p s : PackratHashType) (cb : string -> string -> M unit) (w : World) :
  recursionGuard (exec (checkHashes p s cb) w) = recursionGuard w.
Proof.
  destruct (recursionGuard w) eqn:Hg.
  - unfold exec. now rewrite checkHashes_dropped.
  - destruct (String.eqb_spec (storedHash p w) (computedHash p w)) as [Hp|Hp].
    + now rewrite checkHashes_in_sync.
    + destruct (String.eqb_spec (storedHash s w) (computedHash s w)) as [Hs|Hs].
      * now rewrite checkHashes_primary_only.
      * now rewrite checkHashes_both_drifted.
Qed.

Lemma onLockfileUpdate_sched (o n : string) (w : World) :
  sched (exec (onLockfileUpdate o n) w) = sched w.
Proof.
  unfold exec. destruct (rsPendingRestoreActions w) as [[|a l]|] eqn:Hq.
  - rewrite onLockfileUpdate_none_pending by exact Hq. cbn [snd].
    unfold sched. now rewrite launches_putStored.
  - rewrite (onLockfileUpdate_pending o n w (a :: l)) by (exact Hq || discriminate).
    cbn [snd]. unfold sched. now rewrite launches_emit.
  - rewrite onLockfileUpdate_failed by exact Hq. cbn [snd].
    unfold sched. now rewrite launches_emit.
Qed.

Lemma stepOK_refl (n : nat) (w : World) : stepOK n 0 w w.
Proof. repeat split; lia. Qed.

Lemma stepOK_trans (n1 n2 x1 x2 : nat) (w w1 w2 : World) :
  stepOK n1 x1 w w1 -> stepOK n2 x2 w1 w2 -> stepOK (n1 + n2) (x1 + x2) w w2.
Proof.
  intros (Hl1 & Hm1 & Hp1) (Hl2 & Hm2 & Hp2). split; [lia |]. split; [lia |].
  intros H0 Hb. rewrite Nat2Z.inj_add in *.
  specialize (Hp1 H0 ltac:(lia)). specialize (Hp2 ltac:(lia) ltac:(lia)). lia.
Qed.

Lemma stepOK_sched (n x : nat) (w1 w1' w2 w2' : World) :
  sched w1 = sched w2 -> sched w1' = sched w2' ->
  stepOK n x w1 w1' -> stepOK n x w2 w2'.
Proof.
  unfold sched, stepOK, isRunning. intros [= El Ep En] [= El' Ep' En'].
  now rewrite El, Ep, En, El', Ep', En'.
Qed.

Lemma performAutoSnapshot_stepOK (h : string) (w : World) :
  stepOK 1 0 w (exec (performAutoSnapshot h) w).
Proof.
  unfold exec.
  assert (Hidle : snapshotIdle w ->
                  stepOK 1 0 w (snd (performAutoSnapshot h w))).
  { intros Hi. rewrite performAutoSnapshot_idle by exact Hi. cbn [snd].
    unfold stepOK. rewrite launches_startedWorld.
    assert (Hr : isRunning w = false).
    { unfold snapshotIdle in Hi. unfold isRunning.
      destruct (pAutoSnapshot w); [exact Hi | reflexivity]. }
    rewrite Hr. cbn. repeat split; lia. }
  destruct (pAutoSnapshot w) as [[t r]|] eqn:Hp.
  - destruct r.
    + destruct (String.eqb_spec t h) as [->|Hne].
      * rewrite performAutoSnapshot_same by exact Hp. apply stepOK_refl.
      * rewrite (performAutoSnapshot_other t h w Hp) by congruence. cbn [snd].
        unfold stepOK, isRunning, launches; cbn. rewrite Hp. split; [lia |]. split; [lia |].
        intros H0 Hb. rewrite int_wrap_succ by lia. lia.
    + apply Hidle. unfold snapshotIdle. now rewrite Hp.
  - apply Hidle. unfold snapshotIdle. now rewrite Hp.
Qed.

Lemma performAutoSnapshot_guard (h : string) (w : World) :
  recursionGuard (exec (performAutoSnapshot h) w) = recursionGuard w.
Proof.
  unfold exec.
  assert (Hidle : snapshotIdle w ->
                  recursionGuard (snd (performAutoSnapshot h w)) = recursionGuard w).
  { intros Hi. now rewrite performAutoSnapshot_idle by exact Hi. }
  destruct (pAutoSnapshot w) as [[t r]|] eqn:Hp.
  - destruct r.
    + destruct (String.eqb_spec t h) as [->|Hne].
      * now rewrite performAutoSnapshot_same by exact Hp.
      * now rewrite (performAutoSnapshot_other t h w Hp) by congruence.
    + apply Hidle. unfold snapshotIdle. now rewrite Hp.
  - apply Hidle. unfold snapshotIdle. now rewrite Hp.
Qed.

Lemma checkHashes_stepOK (p s : PackratHashType) (cb : string -> string -> M unit) (w : World) :
  (forall o n w0, stepOK 1 0 w0 (exec (cb o n) w0)) ->
  stepOK 1 0 w (exec (checkHashes p s cb) w).
Proof.
  intros Hcb. destruct (checkHashes_sched p s cb w) as [E|E].
  - apply (stepOK_sched 1 0 w w); [reflexivity | now symmetry | apply stepOK_refl].
  - eapply stepOK_sched; [apply sched_callbackWorld | symmetry; exact E | apply Hcb].
Qed.

Lemma onLockfileUpdate_stepOK (o n : string) (w : World) :
  stepOK 1 0 w (exec (onLockfileUpdate o n) w).
Proof.
  apply (stepOK_sched 1 0 w w);
    [reflexivity | symmetry; apply onLockfileUpdate_sched | apply stepOK_refl].
Qed.

Lemma onFileChanged_stepOK (path : FilePath) (w : World) :
  stepOK 1 0 w (exec (onFileChanged path) w).
Proof.
  unfold exec, onFileChanged, bind, gets; cbn [fst snd].
  repeat match goal with
         | |- stepOK _ _ _ (snd ((if ?c then _ else _) w)) => destruct c
         end;
    first [ apply stepOK_refl
          | apply checkHashes_stepOK; intros; apply onLockfileUpdate_stepOK
          | apply checkHashes_stepOK; intros; apply performAutoSnapshot_stepOK ].
Qed.

Lemma onFileChanged_guard (path : FilePath) (w : World) :
  recursionGuard (exec (onFileChanged path) w) = recursionGuard w.
Proof.
  unfold exec, onFileChanged, bind, gets; cbn [fst snd].
  repeat match goal with
         | |- recursionGuard (snd ((if ?c then _ else _) w)) = _ => destruct c
         end;
    first [ reflexivity | apply checkHashes_guard ].
Qed.

Lemma onFilesChanged_stepOK (changes : list FilePath) (w : World) :
  stepOK (List.length changes) 0 w (exec (onFilesChanged changes) w).
Proof.
  revert w. induction changes as [|path rest IH]; intros w.
  - apply stepOK_refl.
  - change (stepOK (1 + List.length rest) (0 + 0) w
              (exec (onFilesChanged rest) (exec (onFileChanged path) w))).
    eapply stepOK_trans; [apply onFileChanged_stepOK | apply IH].
Qed.

Lemma onFilesChanged_guard (changes : list FilePath) (w : World) :
  recursionGuard (exec (onFilesChanged changes) w) = recursionGuard w.
Proof.
  revert w. induction changes as [|path rest IH]; intros w; [reflexivity |].
  change (recursionGuard (exec (onFilesChanged rest) (exec (onFileChanged path) w)) =
          recursionGuard w).
  now rewrite IH, onFileChanged_guard.
Qed.

Lemma onPackageLibraryMutated_stepOK (w : World) :
  stepOK 1 0 w (exec onPackageLibraryMutated w).
Proof.
  unfold exec, onPackageLibraryMutated, bind, gets; cbn [fst snd].
  destruct (pathExists _ _); [| apply stepOK_refl].
  apply checkHashes_stepOK; intros; apply performAutoSnapshot_stepOK.
Qed.

Lemma onPackageLibraryMutated_guard (w : World) :
  recursionGuard (exec onPackageLibraryMutated w) = recursionGuard w.
Proof.
  unfold exec, onPackageLibraryMutated, bind, gets; cbn [fst snd].
  destruct (pathExists _ _); [apply checkHashes_guard | reflexivity].
Qed.

Lemma isRunning_snapshotRunning (w : World) :
  isRunning w = true -> exists h, snapshotRunning h w.
Proof.
  unfold isRunning, snapshotRunning.
  destruct (pAutoSnapshot w) as [[t r]|]; cbn; [| discriminate].
  intros ->. now exists t.
Qed.

Lemma onProcessCompleted_stepOK (exitStatus : Z) (w : World) :
  isRunning w = true ->
  stepOK 0 1 w (exec (onProcessCompleted exitStatus) w).
Proof.
  intros Hr. destruct (isRunning_snapshotRunning w Hr) as [h Hrun].
  unfold exec. rewrite (onProcessCompleted_running h) by exact Hrun.
  set (w0 := set_pAutoSnapshot (Some {| targetHash_ := h; isRunning_ := false |}) w).
  destruct (Z.eqb_spec exitStatus 0) as [->|Hexit].
  - destruct (Z.ltb_spec 0 (pendingSnapshots w)) as [Hpos|Hle].
    + rewrite onCompleted_pending by exact Hpos.
      rewrite performAutoSnapshot_idle by reflexivity. cbn [snd].
      unfold stepOK. rewrite launches_startedWorld, Hr. unfold launches; cbn. repeat split; lia.
    + fold (exec (onCompleted 0) w0). rewrite onCompleted_caught_up by exact Hle.
      unfold stepOK. rewrite launches_emit, !launches_putStored, launches_hashErrors
        by reflexivity.
      rewrite Hr. unfold launches; cbn. repeat split; lia.
  - rewrite onCompleted_failed by exact Hexit. cbn [snd].
    unfold stepOK. rewrite Hr. unfold launches; cbn. repeat split; lia.
Qed.

Lemma onProcessCompleted_guard (exitStatus : Z) (w : World) :
  isRunning w = true ->
  recursionGuard (exec (onProcessCompleted exitStatus) w) = recursionGuard w.
Proof.
  intros Hr. destruct (isRunning_snapshotRunning w Hr) as [h Hrun].
  unfold exec. rewrite (onProcessCompleted_running h) by exact Hrun.
  set (w0 := set_pAutoSnapshot (Some {| targetHash_ := h; isRunning_ := false |}) w).
  destruct (Z.eqb_spec exitStatus 0) as [->|Hexit].
  - destruct (Z.ltb_spec 0 (pendingSnapshots w)) as [Hpos|Hle].
    + rewrite onCompleted_pending by exact Hpos.
      now rewrite performAutoSnapshot_idle by reflexivity.
    + fold (exec (onCompleted 0) w0). now rewrite onCompleted_caught_up by exact Hle.
  - now rewrite onCompleted_failed by exact Hexit.
Qed.

Lemma deliver_stepOK (ev : SessionEvent) (w : World) :
  stepOK (changesOf ev) (exitsDelivered [ev] w) w (deliver ev w) /\
  recursionGuard (deliver ev w) = recursionGuard w.
Proof.
  destruct ev as [changes|path| |exitStatus|e]; cbn [deliver changesOf exitsDelivered].
  - split; [apply onFilesChanged_stepOK | apply onFilesChanged_guard].
  - split; [apply onFileChanged_stepOK | apply onFileChanged_guard].
  - split; [apply onPackageLibraryMutated_stepOK | apply onPackageLibraryMutated_guard].
  - destruct (isRunning w) eqn:Hr; cbn.
    + split; [now apply onProcessCompleted_stepOK | now apply onProcessCompleted_guard].
    + split; [apply stepOK_refl | reflexivity].
  - split; [| reflexivity]. unfold stepOK, launches, isRunning; cbn. repeat split; lia.
Qed.

Lemma run_stepOK (evs : list SessionEvent) (w : World) :
  stepOK (changesIn evs) (exitsDelivered evs w) w (run evs w) /\
  recursionGuard (run evs w) = recursionGuard w.
Proof.
  revert w. induction evs as [|ev rest IH]; intros w.
  - split; [apply stepOK_refl | reflexivity].
  - destruct (deliver_stepOK ev w) as [Hs Hg].
    destruct (IH (deliver ev w)) as [Hs' Hg'].
    cbn [run changesIn]. split; [| congruence].
    cbn [exitsDelivered] in *. rewrite Nat.add_0_r in Hs.
    eapply stepOK_trans; eassumption.
Qed.

(** X7: whatever reaches the module (file changes, saved files, library
    mutations, process exits, changes of the disk), the recursion guard is
    afterwards as it was before: a pass never leaves it held. *)
Theorem run_keeps_guard (evs : list SessionEvent) (w : World) :
  recursionGuard (run evs w) = recursionGuard w.
Proof. exact (proj2 (run_stepOK evs w)). Qed.

(** X10: over every history the processes started are accounted for: each
    one has exited or is the single one in flight.  No history has two
    snapshot processes running at once. *)
Theorem one_snapshot_in_flight (evs : list SessionEvent) (w : World) :
  (launches (run evs w) + Nat.b2n (isRunning w) =
   launches w + exitsDelivered evs w + Nat.b2n (isRunning (run evs w)))%nat /\
  (launches w <= launches (run evs w))%nat.
Proof.
  destruct (run_stepOK evs w) as [(Hl & Hm & _) _]. split; assumption.
Qed.

(** X11: over every history the pending count stays between zero and its
    old value plus the number of changes reported, as long as that sum is
    below [INT_MAX]: it never goes negative and never overflows. *)
Theorem pending_count_bounded (evs : list SessionEvent) (w : World) :
  (0 <= pendingSnapshots w)%Z ->
  (pendingSnapshots w + Z.of_nat (changesIn evs) < INT_MAX)%Z ->
  (0 <= pendingSnapshots (run evs w) <= pendingSnapshots w + Z.of_nat (changesIn evs))%Z.
Proof.
  intros H0 Hb. destruct (run_stepOK evs w) as [(_ & _ & Hp) _]. now apply Hp.
Qed.

(** X9: a batch of file changes, however long and whatever the paths,
    starts at most one process, and none when one is already in flight. *)
Theorem onFilesChanged_at_most_one_launch (changes : list FilePath) (w : World) :
  (launches (exec (onFilesChanged changes) w) <= S (launches w))%nat /\
  (isRunning w = true ->
     launches (exec (onFilesChanged changes) w) = launches w /\
     isRunning (exec (onFilesChanged changes) w) = true).
Proof.
  destruct (onFilesChanged_stepOK changes w) as (Hl & Hm & _).
  destruct (isRunning w), (isRunning (exec (onFilesChanged changes) w));
    cbn in Hl; split; try lia; intros; try discriminate; split; try reflexivity; lia.
Qed.

(** X16: lockfile reconciliation never touches the scheduler: it starts no
    process, leaves the snapshot in flight and the pending count alone. *)
Theorem lockfile_pass_leaves_scheduler (w : World) :
  let w' := exec (checkHashes HASH_TYPE_LOCKFILE HASH_TYPE_LIBRARY onLockfileUpdate) w in
  launches w' = launches w /\
  pAutoSnapshot w' = pAutoSnapshot w /\
  pendingSnapshots w' = pendingSnapshots w.
Proof.
  intros w'. subst w'.
  assert (E : sched (exec (checkHashes HASH_TYPE_LOCKFILE HASH_TYPE_LIBRARY onLockfileUpdate) w) =
              sched w).
  { destruct (checkHashes_sched HASH_TYPE_LOCKFILE HASH_TYPE_LIBRARY onLockfileUpdate w)
      as [E|E]; [exact E |].
    now rewrite E, onLockfileUpdate_sched, sched_callbackWorld. }
  unfold sched in E. injection E as El Ep En. repeat split; assumption.
Qed.

Lemma performAutoSnapshot_cases (h : string) (w : World) :
  let w' := exec (performAutoSnapshot h) w in
  (w' = w \/ w' = set_pendingSnapshots (int_wrap (pendingSnapshots w + 1)) w \/
   w' = startedWorld h w) /\
  isRunning w' = true.
Proof.
  cbn zeta. unfold exec.
  assert (Hidle : snapshotIdle w ->
            (snd (performAutoSnapshot h w) = w \/
             snd (performAutoSnapshot h w) =
               set_pendingSnapshots (int_wrap (pendingSnapshots w + 1)) w \/
             snd (performAutoSnapshot h w) = startedWorld h w) /\
            isRunning (snd (performAutoSnapshot h w)) = true).
  { intros Hi. rewrite performAutoSnapshot_idle by exact Hi. cbn [snd]. split; auto. }
  destruct (pAutoSnapshot w) as [[t r]|] eqn:Hp.
  - destruct r.
    + destruct (String.eqb_spec t h) as [->|Hne].
      * rewrite performAutoSnapshot_same by exact Hp. cbn [snd].
        split; [auto |]. unfold isRunning. now rewrite Hp.
      * rewrite (performAutoSnapshot_other t h w Hp) by congruence. cbn [snd].
        split; [auto |]. unfold isRunning; cbn. now rewrite Hp.
    + apply Hidle. unfold snapshotIdle. now rewrite Hp.
  - apply Hidle. unfold snapshotIdle. now rewrite Hp.
Qed.

Lemma performAutoSnapshot_running_no_launch (h : string) (w : World) :
  isRunning w = true -> launches (exec (performAutoSnapshot h) w) = launches w.
Proof.
  intros Hr. destruct (performAutoSnapshot_stepOK h w) as (Hl & Hm & _).
  rewrite Hr in Hl. destruct (isRunning (exec (performAutoSnapshot h) w)); cbn in Hl; lia.
Qed.

(** X8: a library reconciliation that follows a library reconciliation,
    with nothing in between, never starts a process: what the first pass
    asked for is in flight or was stored. *)
Theorem library_pass_twice_no_second_launch (w : World) :
  let pass := checkHashes HASH_TYPE_LIBRARY HASH_TYPE_LOCKFILE onLibraryUpdate in
  launches (exec pass (exec pass w)) = launches (exec pass w).
Proof.
  cbn zeta.
  set (pass := checkHashes HASH_TYPE_LIBRARY HASH_TYPE_LOCKFILE onLibraryUpdate).
  destruct (recursionGuard w) eqn:Hg.
  { unfold exec, pass. rewrite (checkHashes_dropped _ _ _ w Hg). cbn [snd].
    now rewrite (checkHashes_dropped _ _ _ w Hg). }
  destruct (String.eqb_spec (storedHash HASH_TYPE_LIBRARY w)
              (computedHash HASH_TYPE_LIBRARY w)) as [Hp|Hp].
  { unfold pass at 2 3. rewrite (checkHashes_in_sync _ _ _ w Hg Hp).
    unfold pass. rewrite checkHashes_in_sync;
      [ | reflexivity
        | rewrite (storedHash_ext _ _ w), (computedHash_ext _ _ w) by reflexivity;
          exact Hp ].
    unfold launches; cbn. rewrite !app_nil_r. reflexivity. }
  destruct (String.eqb_spec (storedHash HASH_TYPE_LOCKFILE w)
              (computedHash HASH_TYPE_LOCKFILE w)) as [Hs|Hs].
  - unfold pass at 2 3. rewrite (checkHashes_primary_only _ _ _ w Hg Hp Hs).
    unfold onLibraryUpdate at 1 2.
    set (cw := callbackWorld HASH_TYPE_LIBRARY HASH_TYPE_LOCKFILE w).
    set (h := computedHash HASH_TYPE_LIBRARY w).
    destruct (performAutoSnapshot_cases h cw) as [Hcases Hrun].
    set (w1 := exec (performAutoSnapshot h) cw) in *.
    assert (Hframe : projectPersistent w1 = projectPersistent w /\
                     projectDirectory w1 = projectDirectory w /\
                     fileSystem w1 = fileSystem w).
    { destruct Hcases as [-> | [-> | ->]]; repeat split. }
    destruct Hframe as (Fp & Fd & Ff).
    assert (Hst : forall t, storedHash t (set_recursionGuard false w1) = storedHash t w)
      by (intros t; apply storedHash_ext; exact Fp).
    assert (Hco : forall t, computedHash t (set_recursionGuard false w1) = computedHash t w)
      by (intros t; apply computedHash_ext; assumption).
    unfold pass. rewrite checkHashes_primary_only;
      [ | reflexivity | rewrite Hst, Hco; exact Hp | rewrite Hst, Hco; exact Hs ].
    unfold onLibraryUpdate.
    change (launches (exec (performAutoSnapshot
                              (computedHash HASH_TYPE_LIBRARY (set_recursionGuard false w1)))
                           (callbackWorld HASH_TYPE_LIBRARY HASH_TYPE_LOCKFILE
                              (set_recursionGuard false w1))) =
            launches w1).
    rewrite performAutoSnapshot_running_no_launch by exact Hrun.
    unfold callbackWorld. rewrite !launches_hashErrors. reflexivity.
  - unfold pass at 2 3. rewrite (checkHashes_both_drifted _ _ _ w Hg Hp Hs).
    set (w1 := set_recursionGuard false _).
    unfold pass. rewrite checkHashes_in_sync; [ | reflexivity | ].
    + change (launches (emits (hashErrors HASH_TYPE_LIBRARY w1)
                          (set_recursionGuard true w1)) = launches w1).
      now rewrite launches_hashErrors.
    + rewrite (computedHash_ext _ w1 w) by reflexivity.
      unfold w1.
      rewrite (storedHash_ext _ _
                 (putStored HASH_TYPE_LOCKFILE (computedHash HASH_TYPE_LOCKFILE w)
                    (putStored HASH_TYPE_LIBRARY (computedHash HASH_TYPE_LIBRARY w) w)))
        by reflexivity.
      now rewrite !storedHash_putStored.
Qed.

Lemma requestAll_running (h1 : string) (targets : list string) (w : World) :
  snapshotRunning h1 w ->
  (0 <= pendingSnapshots w)%Z ->
  (pendingSnapshots w + Z.of_nat (List.length targets) < INT_MAX)%Z ->
  exec (requestAll targets) w =
  set_pendingSnapshots (pendingSnapshots w + Z.of_nat (otherTargets h1 targets)) w.
Proof.
  revert w. induction targets as [|h rest IH]; intros w Hrun H0 Hb.
  - unfold exec, otherTargets; cbn. rewrite Z.add_0_r. now destruct w.
  - change (exec (requestAll (h :: rest)) w)
      with (exec (requestAll rest) (exec (performAutoSnapshot h) w)).
    cbn [List.length] in Hb. rewrite Nat2Z.inj_succ in Hb.
    unfold otherTargets; cbn [List.filter].
    destruct (String.eqb_spec h1 h) as [<-|Hne]; cbn [negb List.length].
    + unfold exec at 2. rewrite (performAutoSnapshot_same h1 w Hrun). cbn [snd].
      apply IH; [exact Hrun | exact H0 | lia].
    + unfold exec at 2. rewrite (performAutoSnapshot_other h1 h w Hrun) by congruence.
      cbn [snd]. rewrite int_wrap_succ by lia.
      rewrite (IH (set_pendingSnapshots (pendingSnapshots w + 1) w) Hrun
                 ltac:(cbn; lia) ltac:(cbn; lia)).
      unfold set_pendingSnapshots, otherTargets; cbn. f_equal. lia.
Qed.

(** X12: however many requests arrive while the snapshot for [h1] is in
    flight, none of them starts a process and the pending count goes up by
    the number of those asking for another hash; if there is at least one
    such, a zero exit of the [h1] run is followed by exactly one new
    process, aiming at the library hash of the disk as it is then, and the
    count is zero again. *)
Theorem queued_requests_one_follow_up
    (h1 : string) (targets : list string) (e : Environment) (w : World) :
  snapshotRunning h1 w ->
  (0 <= pendingSnapshots w)%Z ->
  (pendingSnapshots w + Z.of_nat (List.length targets) < INT_MAX)%Z ->
  (0 < otherTargets h1 targets)%nat ->
  let w1 := exec (requestAll targets) w in
  let w2 := set_environment e w1 in
  let w3 := exec (onProcessCompleted 0) w2 in
  launches w1 = launches w /\
  snapshotRunning h1 w1 /\
  pendingSnapshots w1 = (pendingSnapshots w + Z.of_nat (otherTargets h1 targets))%Z /\
  launches w3 = S (launches w) /\
  snapshotRunning (computedHash HASH_TYPE_LIBRARY w2) w3 /\
  pendingSnapshots w3 = 0%Z.
Proof.
  intros Hrun H0 Hb Hpos w1 w2 w3. subst w3 w2 w1.
  rewrite (requestAll_running h1 targets w Hrun H0 Hb).
  split; [reflexivity |]. split; [exact Hrun |]. split; [reflexivity |].
  unfold exec. rewrite (onProcessCompleted_running h1) by exact Hrun.
  rewrite onCompleted_pending by (cbn; lia).
  rewrite performAutoSnapshot_idle by reflexivity. cbn [snd].
  rewrite launches_startedWorld. repeat split.
  unfold snapshotRunning; cbn. do 2 f_equal. apply computedHash_ext; reflexivity.
Qed.

(** X13: a file change is ignored (the world is returned as it is) when
    the file is not named [packrat.lock] and lies outside [packrat/lib], or
    is a plain file of the library not named DESCRIPTION, or is named
    [manipulate] or [rstudio], or lies directly in a directory of that
    name. *)
Theorem onFileChanged_ignored (path : FilePath) (w : World) :
  filename path <> "packrat.lock" ->
  isWithin path (libraryPath w) = false \/
  (isDirectory (fileSystem w) path = false /\ filename path <> "DESCRIPTION") \/
  filename path = "manipulate" \/ filename path = "rstudio" \/
  filename (parent path) = "manipulate" \/ filename (parent path) = "rstudio" ->
  onFileChanged path w = (tt, w).
Proof.
  intros Hlock Hwhy. apply String.eqb_neq in Hlock.
  unfold onFileChanged, libraryPath, bind, gets in *; cbn [fst snd]. rewrite Hlock.
  destruct Hwhy as [H | [[Hd Hn] | [H | [H | [H | H]]]]].
  - rewrite H. reflexivity.
  - apply String.eqb_neq in Hn. rewrite Hd, Hn, andb_false_r. reflexivity.
  - rewrite H. destruct (_ && _); reflexivity.
  - rewrite H. destruct (_ && _); reflexivity.
  - rewrite H. destruct (_ && _); [| reflexivity].
    change (String.eqb "manipulate" "manipulate") with true.
    rewrite orb_true_r. reflexivity.
  - rewrite H. destruct (_ && _); [| reflexivity].
    change (String.eqb "rstudio" "rstudio") with true.
    rewrite orb_true_r. reflexivity.
Qed.

(** X14: delivering two batches of file changes one after the other is
    delivering their concatenation. *)
Theorem onFilesChanged_app (changes1 changes2 : list FilePath) (w : World) :
  exec (onFilesChanged (changes1 ++ changes2)) w =
  exec (onFilesChanged changes2) (exec (onFilesChanged changes1) w).
Proof.
  revert w. induction changes1 as [|path rest IH]; intros w; [reflexivity |].
  change (exec (onFilesChanged (rest ++ changes2)) (exec (onFileChanged path) w) =
          exec (onFilesChanged changes2)
            (exec (onFilesChanged rest) (exec (onFileChanged path) w))).
  apply IH.
Qed.

Lemma isWithin_refl (p : FilePath) : isWithin p p = true.
Proof. induction p as [|a p IH]; cbn; [reflexivity |]. now rewrite String.eqb_refl. Qed.

(** X15: the library-mutated signal does nothing when [packrat/lib] does
    not exist, and when it is a directory the signal does exactly what a
    file change reported for that directory does. *)
Theorem onPackageLibraryMutated_as_file_change (w : World) :
  (pathExists (fileSystem w) (libraryPath w) = false ->
     onPackageLibraryMutated w = (tt, w)) /\
  (isDirectory (fileSystem w) (libraryPath w) = true ->
     onPackageLibraryMutated w = onFileChanged (libraryPath w) w).
Proof.
  unfold onPackageLibraryMutated, onFileChanged, libraryPath, complete, bind, gets;
    cbn [fst snd].
  split.
  - intros ->. reflexivity.
  - intros Hd.
    assert (He : pathExists (fileSystem w) (projectDirectory w ++ ["packrat"; "lib"]) = true).
    { unfold pathExists. unfold isDirectory in Hd.
      destruct (fsLookup _ _); [reflexivity | discriminate]. }
    assert (Hf : filename (projectDirectory w ++ ["packrat"; "lib"]) = "lib").
    { unfold filename. change ["packrat"; "lib"] with (["packrat"] ++ ["lib"]).
      rewrite app_assoc. apply List.last_last. }
    assert (Hpf : filename (parent (projectDirectory w ++ ["packrat"; "lib"])) = "packrat").
    { unfold filename, parent. change ["packrat"; "lib"] with (["packrat"] ++ ["lib"]).
      rewrite app_assoc, List.removelast_last. apply List.last_last. }
    rewrite He, Hf, Hpf, isWithin_refl, Hd. reflexivity.
Qed.

(** X17: a lockfile pass that finds restore actions pending leaves the
    drift in place, so the next lockfile pass finds the same and queues the
    restore-needed event once more: the notification is repeated by every
    lockfile event until the stored hash is brought up to date from
    outside. *)
Theorem restore_needed_is_repeated (w : World) (actions : SEXP) :
  recursionGuard w = false ->
  storedHash HASH_TYPE_LOCKFILE w <> computedHash HASH_TYPE_LOCKFILE w ->
  storedHash HASH_TYPE_LIBRARY w = computedHash HASH_TYPE_LIBRARY w ->
  rsPendingRestoreActions w = Some actions ->
  actions <> [] ->
  let pass := checkHashes HASH_TYPE_LOCKFILE HASH_TYPE_LIBRARY onLockfileUpdate in
  let w' := exec pass w in
  recursionGuard w' = false /\
  storedHash HASH_TYPE_LOCKFILE w' <> computedHash HASH_TYPE_LOCKFILE w' /\
  storedHash HASH_TYPE_LIBRARY w' = computedHash HASH_TYPE_LIBRARY w' /\
  effects (exec pass w') =
    effects w ++
    (hashErrors HASH_TYPE_LOCKFILE w ++ [EffEnqueClientEvent (kPackratRestoreNeeded actions)]) ++
    (hashErrors HASH_TYPE_LOCKFILE w ++ [EffEnqueClientEvent (kPackratRestoreNeeded actions)]).
Proof.
  intros Hg Hp Hs Hq Hne pass w'.
  assert (E : w' = set_recursionGuard false
                (emit (EffEnqueClientEvent (kPackratRestoreNeeded actions))
                   (callbackWorld HASH_TYPE_LOCKFILE HASH_TYPE_LIBRARY w))).
  { subst w' pass. rewrite checkHashes_primary_only by assumption.
    unfold exec. now rewrite (onLockfileUpdate_pending _ _ _ actions) by assumption. }
  assert (Hst : forall t, storedHash t w' = storedHash t w)
    by (intros t; rewrite E; now apply storedHash_ext).
  assert (Hco : forall t, computedHash t w' = computedHash t w)
    by (intros t; rewrite E; now apply computedHash_ext).
  assert (Her : forall t, hashErrors t w' = hashErrors t w)
    by (intros t; rewrite E; now apply hashErrors_ext).
  split; [rewrite E; reflexivity |].
  split; [rewrite !Hst, !Hco; exact Hp |].
  split; [rewrite !Hst, !Hco; exact Hs |].
  subst pass. rewrite checkHashes_primary_only;
    [ | rewrite E; reflexivity | rewrite !Hst, !Hco; exact Hp
      | rewrite !Hst, !Hco; exact Hs ].
  unfold exec. rewrite (onLockfileUpdate_pending _ _ _ actions);
    [ | rewrite E; exact Hq | exact Hne ].
  unfold callbackWorld at 1. rewrite !Her. rewrite E. cbn -[hashErrors].
  rewrite !app_nil_r, <- !app_assoc. reflexivity.
Qed.

(** X18: when only the library has drifted and no snapshot is in flight,
    the library pass stores nothing: it starts one snapshot process aiming at
    the computed library hash, in the project directory, with the command R
    gave (the empty command and a logged error when R failed). *)
Theorem library_drift_starts_snapshot (w : World) :
  recursionGuard w = false ->
  storedHash HASH_TYPE_LIBRARY w <> computedHash HASH_TYPE_LIBRARY w ->
  storedHash HASH_TYPE_LOCKFILE w = computedHash HASH_TYPE_LOCKFILE w ->
  snapshotIdle w ->
  let w' := exec (checkHashes HASH_TYPE_LIBRARY HASH_TYPE_LOCKFILE onLibraryUpdate) w in
  projectPersistent w' = projectPersistent w /\
  snapshotRunning (computedHash HASH_TYPE_LIBRARY w) w' /\
  effects w' =
    effects w ++ hashErrors HASH_TYPE_LOCKFILE w ++ snapshotCmdErrors w ++
    [EffProcessStart (snapshotCmd w) (projectDirectory w)
       (computedHash HASH_TYPE_LIBRARY w)] /\
  pendingSnapshots w' = pendingSnapshots w /\
  recursionGuard w' = false.
Proof.
  intros Hg Hp Hs Hi w'. subst w'.
  rewrite checkHashes_primary_only by assumption.
  unfold exec, onLibraryUpdate. rewrite performAutoSnapshot_idle by exact Hi.
  cbn [snd]. repeat split.
  cbn -[hashErrors]. rewrite <- !app_assoc. reflexivity.
Qed.

(** X19: when [.rs.getAutoSnapshotCmd] fails, a request that finds the
    scheduler idle logs the error and starts the process all the same, with
    the empty command; the snapshot counts as running. *)
Theorem snapshot_started_without_command (h : string) (w : World) :
  rsGetAutoSnapshotCmd w = None ->
  snapshotIdle w ->
  let w' := exec (performAutoSnapshot h) w in
  effects w' =
    effects w ++ [EffLogError ErrGetAutoSnapshotCmd;
                  EffProcessStart "" (projectDirectory w) h] /\
  snapshotRunning h w' /\
  launches w' = S (launches w).
Proof.
  intros Hq Hi w'. subst w'. unfold exec.
  rewrite performAutoSnapshot_idle by exact Hi. cbn [snd].
  split; [| split; [reflexivity | apply launches_startedWorld]].
  unfold startedWorld, snapshotCmdErrors, snapshotCmd. rewrite Hq. reflexivity.
Qed.

(** X20: a DESCRIPTION file or a directory inside [packrat/lib] is handed
    to library reconciliation whenever neither its own name nor the name of
    the directory it lies in is [manipulate] or [rstudio]; a directory of
    that name further up the path does not exclude it. *)
Theorem onFileChanged_library_dispatch (path : FilePath) (w : World) :
  isWithin path (libraryPath w) = true ->
  isDirectory (fileSystem w) path = true \/ filename path = "DESCRIPTION" ->
  filename path <> "packrat.lock" ->
  filename path <> "manipulate" -> filename path <> "rstudio" ->
  filename (parent path) <> "manipulate" -> filename (parent path) <> "rstudio" ->
  onFileChanged path w =
  checkHashes HASH_TYPE_LIBRARY HASH_TYPE_LOCKFILE onLibraryUpdate w.
Proof.
  intros Hw Hk Hl H1 H2 H3 H4.
  apply String.eqb_neq in Hl, H1, H2, H3, H4.
  unfold onFileChanged, libraryPath, bind, gets in *; cbn [fst snd].
  rewrite Hl, Hw, H1, H2, H3, H4.
  destruct Hk as [-> | ->]; [reflexivity |].
  rewrite orb_true_r. reflexivity.
Qed.

(** ** Context and options *)

(** X21: the context is applicable exactly when packrat is installed and
    there is a project.  When it is not, no R function is consulted: the
    packified and mode flags are those of a default-constructed context and
    nothing is logged.  The mode is asked for only when the project is
    packified, and at most two errors are logged.  If a default-constructed
    context has both flags off, mode on implies packified, packified implies
    applicable and applicable implies available. *)
Theorem packratContext_flags (r : RSession) :
  let context := fst (packratContext r) in
  let log := snd (packratContext r) in
  available context = packratInstalled r /\
  applicable context = packratInstalled r && hasProject r /\
  (applicable context = false ->
     packified context = packified defaultPackratContext /\
     modeOn context = modeOn defaultPackratContext /\ log = []) /\
  (packified context = false -> modeOn context = modeOn defaultPackratContext) /\
  (List.length log <= 2)%nat /\
  (packified defaultPackratContext = false -> modeOn defaultPackratContext = false ->
     (modeOn context = true -> packified context = true) /\
     (packified context = true -> applicable context = true) /\
     (applicable context = true -> available context = true)).
Proof.
  cbn zeta. unfold packratContext, isRequiredPackratInstalled, logIf.
  destruct (packratInstalled r), (hasProject r); cbn [andb];
    try (cbn; repeat split; try congruence; try lia; intros; congruence).
  destruct (rCheckPackified r (packified defaultPackratContext)) as [e1 p1]; cbn [fst snd].
  destruct p1.
  - destruct (rIsPackratModeOn r (modeOn defaultPackratContext)) as [e2 m2]; cbn [fst snd].
    destruct e1, e2; cbn; repeat split; try congruence; lia.
  - destruct e1; cbn; repeat split; try congruence; lia.
Qed.

(** X22: the JSON form of a context has the four members [available],
    [applicable], [packified] and [mode_on], and two contexts with the same
    JSON form are the same context. *)
Theorem contextAsJson_injective (c1 c2 : PackratContext) :
  dom (contextAsJson c1) =
    ({["available"; "applicable"; "packified"; "mode_on"]} : gset string) /\
  (contextAsJson c1 = contextAsJson c2 -> c1 = c2).
Proof.
  split.
  - unfold contextAsJson. rewrite !dom_insert_L, dom_empty_L. set_solver.
  - intros E. destruct c1 as [a1 b1 p1 m1], c2 as [a2 b2 p2 m2].
    unfold contextAsJson in E; cbn in E.
    pose proof (f_equal (fun m => m !! "available") E) as Ha.
    pose proof (f_equal (fun m => m !! "applicable") E) as Hb.
    pose proof (f_equal (fun m => m !! "packified") E) as Hp.
    pose proof (f_equal (fun m => m !! "mode_on") E) as Hm.
    cbn beta in Ha, Hb, Hp, Hm. clear E.
    repeat first [ rewrite lookup_insert_eq in Ha
                 | rewrite lookup_insert_ne in Ha by discriminate ].
    repeat first [ rewrite lookup_insert_eq in Hb
                 | rewrite lookup_insert_ne in Hb by discriminate ].
    repeat first [ rewrite lookup_insert_eq in Hp
                 | rewrite lookup_insert_ne in Hp by discriminate ].
    repeat first [ rewrite lookup_insert_eq in Hm
                 | rewrite lookup_insert_ne in Hm by discriminate ].
    congruence.
Qed.

(** X23: the options always have exactly the members [mode_on],
    [auto_snapshot], [vcs_ignore_lib] and [vcs_ignore_src], each a boolean.
    [mode_on] tells the mode of the context only when the project is
    packified and [packrat:::get_opts] answers; in every other case, a
    failing [get_opts] included, the options are the defaults and [mode_on]
    is off. *)
Theorem packratOptionsAsJson_members (r : RSession) :
  let options := fst (packratOptionsAsJson r) in
  let context := fst (packratContext r) in
  dom options =
    ({["mode_on"; "auto_snapshot"; "vcs_ignore_lib"; "vcs_ignore_src"]} : gset string) /\
  (forall k v, options !! k = Some v -> exists b, v = JsonBool b) /\
  options !! "mode_on" =
    Some (JsonBool (packified context &&
                    match rGetOpts r with Some _ => modeOn context | None => false end)) /\
  (packified context = false \/ rGetOpts r = None -> options = defaultPackratOptions).
Proof.
  cbn zeta. unfold packratOptionsAsJson, copyOption, defaultPackratOptions.
  assert (Hbool : forall (m : gmap string JsonValue) (a b c d : string) (va vb vc vd : bool),
            m = <[a := JsonBool va]> (<[b := JsonBool vb]> (<[c := JsonBool vc]>
                  (<[d := JsonBool vd]> ∅))) ->
            forall k v, m !! k = Some v -> exists x, v = JsonBool x).
  { intros m a b c d va vb vc vd -> k v Hk.
    repeat (apply lookup_insert_Some in Hk as [[_ <-] | [_ Hk]]; [eauto |]).
    now rewrite lookup_empty in Hk. }
  destruct (packified (fst (packratContext r))); cbn [andb];
    [destruct (rGetOpts r) as [o|] |]; cbn [fst snd].
  - split; [| split; [| split]].
    + rewrite !dom_insert_L, dom_empty_L. set_solver.
    + eapply Hbool. reflexivity.
    + rewrite !lookup_insert_ne by discriminate. now rewrite lookup_insert_eq.
    + intros [H | H]; discriminate.
  - split; [| split; [| split]].
    + rewrite !dom_insert_L, dom_empty_L. set_solver.
    + eapply Hbool. reflexivity.
    + rewrite !lookup_insert_ne by discriminate. now rewrite lookup_insert_eq.
    + reflexivity.
  - split; [| split; [| split]].
    + rewrite !dom_insert_L, dom_empty_L. set_solver.
    + eapply Hbool. reflexivity.
    + rewrite !lookup_insert_ne by discriminate. now rewrite lookup_insert_eq.
    + reflexivity.
Qed.

End SessionPackrat.

(** ** The theorems at work *)

(** An R session with packrat installed, a packified project and mode on;
    the options are a list of named flags. *)
Definition exampleSession : RSession (list (string * bool)) :=
  {| packratInstalled := true;
     hasProject := true;
     rCheckPackified := fun _ => (false, true);
     rIsPackratModeOn := fun _ => (false, true);
     rGetOpts := Some [("auto.snapshot", false)] |}.

Definition exampleDefaultContext : PackratContext :=
  {| available := false; applicable := false; packified := false; modeOn := false |}.

Lemma onLockfileUpdate_keeps_guard (o n : string) (w : World) :
  recursionGuard w = true -> recursionGuard (exec (onLockfileUpdate o n) w) = true.
Proof.
  intros Hg. unfold exec, onLockfileUpdate, bind, gets; cbn [fst snd].
  destruct (rsPendingRestoreActions w) as [[|a l]|]; exact Hg.
Qed.

(** The first scenario of the specification: only the lockfile has drifted
    and nothing is pending; the stored lockfile hash follows, nothing is
    sent and nothing is started. *)
Example scenario_lockfile_drift :
  exec (checkHashes exampleHash HASH_TYPE_LOCKFILE HASH_TYPE_LIBRARY onLockfileUpdate)
       (lockfileDriftWorld (Some [])) =
  putStored HASH_TYPE_LOCKFILE "#A2" (lockfileDriftWorld (Some [])).
Proof. vm_compute. reflexivity. Qed.

(** The second scenario: only the library has drifted and the scheduler is
    idle; one snapshot aiming at the new hash is started, and when it exits
    with status zero both stored hashes follow the disk and the client is
    told. *)
Example scenario_library_drift :
  let w1 := exec (onFileChanged exampleHash
                    (exampleProject ++ ["packrat"; "lib"; "pkg"; "DESCRIPTION"]))
                 libraryDriftWorld in
  let w2 := exec (onProcessCompleted exampleHash 0) w1 in
  effects w1 = [EffProcessStart "packrat::snapshot()" exampleProject "#B2"] /\
  snapshotRunning "#B2" w1 /\
  storedHash HASH_TYPE_LIBRARY w1 = "B" /\
  storedHash HASH_TYPE_LIBRARY w2 = "#B2" /\
  storedHash HASH_TYPE_LOCKFILE w2 = "#A" /\
  effects w2 =
    [EffProcessStart "packrat::snapshot()" exampleProject "#B2";
     EffPutProjectPersistent "packrat" "packratLockfileHash" "#A";
     EffPutProjectPersistent "packrat" "packratLibraryHash" "#B2";
     EffEnqueClientEvent kInstalledPackagesChanged].
Proof. vm_compute. repeat split. Qed.

(** C1, the claim as stated fails: with the lockfile drifted, the library
    in sync and the query failing, the stored lockfile hash stays ["A"]
    while the disk hashes to ["#A2"]; with the empty answer in the same
    world it becomes ["#A2"]. *)
Lemma lockfile_query_failure_not_as_empty_answer :
  recursionGuard (lockfileDriftWorld None) = false /\
  storedHash HASH_TYPE_LOCKFILE (lockfileDriftWorld None) = "A" /\
  computedHash exampleHash HASH_TYPE_LOCKFILE (lockfileDriftWorld None) = "#A2" /\
  storedHash HASH_TYPE_LIBRARY (lockfileDriftWorld None) =
    computedHash exampleHash HASH_TYPE_LIBRARY (lockfileDriftWorld None) /\
  rsPendingRestoreActions (lockfileDriftWorld None) = None /\
  storedHash HASH_TYPE_LOCKFILE
    (exec (checkHashes exampleHash HASH_TYPE_LOCKFILE HASH_TYPE_LIBRARY onLockfileUpdate)
          (lockfileDriftWorld (Some []))) = "#A2" /\
  storedHash HASH_TYPE_LOCKFILE
    (exec (checkHashes exampleHash HASH_TYPE_LOCKFILE HASH_TYPE_LIBRARY onLockfileUpdate)
          (lockfileDriftWorld None)) = "A" /\
  storedHash HASH_TYPE_LOCKFILE
    (exec (checkHashes exampleHash HASH_TYPE_LOCKFILE HASH_TYPE_LIBRARY onLockfileUpdate)
          (lockfileDriftWorld None)) <>
  computedHash exampleHash HASH_TYPE_LOCKFILE (lockfileDriftWorld None).
Proof.
  repeat (split; [vm_compute; reflexivity |]).
  vm_compute. discriminate.
Qed.

Lemma lockfile_query_failure_keeps_hash_witness :
  effects (exec (checkHashes exampleHash HASH_TYPE_LOCKFILE HASH_TYPE_LIBRARY onLockfileUpdate)
                (lockfileDriftWorld None)) =
    [EffLogError ErrPendingRestoreActions] /\
  storedHash HASH_TYPE_LOCKFILE
    (exec (checkHashes exampleHash HASH_TYPE_LOCKFILE HASH_TYPE_LIBRARY onLockfileUpdate)
          (lockfileDriftWorld None)) = "A".
Proof.
  pose proof (lockfile_query_failure_keeps_hash exampleHash (lockfileDriftWorld None)
                eq_refl
                ltac:(vm_compute; discriminate)
                ltac:(vm_compute; reflexivity)
                eq_refl) as (_ & He & Hs & _).
  split; [exact He | exact Hs].
Defined.

Lemma checkHashes_conflict_policy_witness :
  storedHash HASH_TYPE_LOCKFILE
    (exec (checkHashes exampleHash HASH_TYPE_LOCKFILE HASH_TYPE_LIBRARY onLockfileUpdate)
          conflictWorld) = "#A2" /\
  storedHash HASH_TYPE_LIBRARY
    (exec (checkHashes exampleHash HASH_TYPE_LOCKFILE HASH_TYPE_LIBRARY onLockfileUpdate)
          conflictWorld) = "#B2" /\
  effects
    (exec (checkHashes exampleHash HASH_TYPE_LOCKFILE HASH_TYPE_LIBRARY onLockfileUpdate)
          conflictWorld) =
    [EffPutProjectPersistent "packrat" "packratLockfileHash" "#A2";
     EffPutProjectPersistent "packrat" "packratLibraryHash" "#B2"].
Proof.
  pose proof (checkHashes_conflict_policy exampleHash
                HASH_TYPE_LOCKFILE HASH_TYPE_LIBRARY onLockfileUpdate conflictWorld
                eq_refl
                ltac:(vm_compute; discriminate)
                ltac:(vm_compute; discriminate)) as (Hp & Hs & _ & He & _).
  split; [exact Hp | split; [exact Hs | exact He]].
Defined.

Lemma lockfile_restore_needed_gating_witness :
  effects
    (exec (checkHashes exampleHash HASH_TYPE_LOCKFILE HASH_TYPE_LIBRARY onLockfileUpdate)
          (lockfileDriftWorld (Some ["install pkg 1.0"]))) =
    [EffEnqueClientEvent (kPackratRestoreNeeded ["install pkg 1.0"])] /\
  storedHash HASH_TYPE_LOCKFILE
    (exec (checkHashes exampleHash HASH_TYPE_LOCKFILE HASH_TYPE_LIBRARY onLockfileUpdate)
          (lockfileDriftWorld (Some ["install pkg 1.0"]))) = "A" /\
  storedHash HASH_TYPE_LOCKFILE
    (exec (checkHashes exampleHash HASH_TYPE_LOCKFILE HASH_TYPE_LIBRARY onLockfileUpdate)
          (lockfileDriftWorld (Some []))) = "#A2".
Proof.
  pose proof (lockfile_restore_needed_gating exampleHash
                (lockfileDriftWorld (Some ["install pkg 1.0"])) ["install pkg 1.0"]
                eq_refl
                ltac:(vm_compute; discriminate)
                ltac:(vm_compute; reflexivity)
                eq_refl) as (Hsome & _).
  pose proof (lockfile_restore_needed_gating exampleHash
                (lockfileDriftWorld (Some [])) []
                eq_refl
                ltac:(vm_compute; discriminate)
                ltac:(vm_compute; reflexivity)
                eq_refl) as (_ & Hnone).
  destruct (Hsome ltac:(discriminate)) as (_ & Hs & He).
  destruct (Hnone eq_refl) as (Hn & _).
  split; [exact He | split; [exact Hs | exact Hn]].
Defined.

(** C2, the claim as stated fails: [docs/packrat.lock] is not the project's
    lockfile, yet an event for it is handed to lockfile reconciliation, which
    finds the project's lockfile drifted and stores its new hash. *)
Lemma stray_lockfile_name_dispatches :
  strayLockfile <> lockfilePath strayLockfileWorld /\
  onFileChanged exampleHash strayLockfile strayLockfileWorld =
    checkHashes exampleHash HASH_TYPE_LOCKFILE HASH_TYPE_LIBRARY onLockfileUpdate
      strayLockfileWorld /\
  storedHash HASH_TYPE_LOCKFILE strayLockfileWorld = "A" /\
  storedHash HASH_TYPE_LOCKFILE
    (exec (onFileChanged exampleHash strayLockfile) strayLockfileWorld) = "#A2" /\
  effects (exec (onFileChanged exampleHash strayLockfile) strayLockfileWorld) =
    [EffPutProjectPersistent "packrat" "packratLockfileHash" "#A2"].
Proof.
  split; [vm_compute; discriminate |].
  repeat (split; [vm_compute; reflexivity |]).
  vm_compute. reflexivity.
Qed.

Lemma onFileChanged_lockfile_dispatch_witness :
  onFileChanged exampleHash strayLockfile strayLockfileWorld =
    checkHashes exampleHash HASH_TYPE_LOCKFILE HASH_TYPE_LIBRARY onLockfileUpdate
      strayLockfileWorld /\
  (onFileChanged exampleHash (exampleProject ++ ["README"]) strayLockfileWorld =
     (tt, strayLockfileWorld) \/
   onFileChanged exampleHash (exampleProject ++ ["README"]) strayLockfileWorld =
     checkHashes exampleHash HASH_TYPE_LIBRARY HASH_TYPE_LOCKFILE onLibraryUpdate
       strayLockfileWorld).
Proof.
  split.
  - exact (proj1 (onFileChanged_lockfile_dispatch exampleHash strayLockfile
                    strayLockfileWorld) eq_refl).
  - exact (proj1 (proj2 (onFileChanged_lockfile_dispatch exampleHash
                           (exampleProject ++ ["README"]) strayLockfileWorld))
                 ltac:(vm_compute; discriminate)).
Defined.

Lemma checkHashes_guard_exclusion_witness :
  checkHashes exampleHash HASH_TYPE_LIBRARY HASH_TYPE_LOCKFILE onLibraryUpdate
    (set_recursionGuard true conflictWorld) =
    (tt, set_recursionGuard true conflictWorld) /\
  exec (checkHashes exampleHash HASH_TYPE_LOCKFILE HASH_TYPE_LIBRARY
          (fun o n =>
             onLockfileUpdate o n ;;;
             onFilesChanged exampleHash [lockfilePath (lockfileDriftWorld (Some []))] ;;;
             checkHashes exampleHash HASH_TYPE_LIBRARY HASH_TYPE_LOCKFILE onLibraryUpdate))
       (lockfileDriftWorld (Some [])) =
  exec (checkHashes exampleHash HASH_TYPE_LOCKFILE HASH_TYPE_LIBRARY onLockfileUpdate)
       (lockfileDriftWorld (Some [])).
Proof.
  split.
  - exact (proj1 (proj1 (checkHashes_guard_exclusion exampleHash
                           HASH_TYPE_LIBRARY HASH_TYPE_LOCKFILE onLibraryUpdate
                           (set_recursionGuard true conflictWorld)) eq_refl)).
  - exact (proj2 (checkHashes_guard_exclusion exampleHash
                    HASH_TYPE_LOCKFILE HASH_TYPE_LIBRARY onLockfileUpdate
                    (lockfileDriftWorld (Some [])))
                 onLockfileUpdate_keeps_guard
                 [lockfilePath (lockfileDriftWorld (Some []))]
                 HASH_TYPE_LIBRARY HASH_TYPE_LOCKFILE onLibraryUpdate).
Defined.

Lemma performAutoSnapshot_coalesces_witness :
  performAutoSnapshot "#B2" runningWorld = (tt, runningWorld) /\
  launches (exec (performAutoSnapshot "#B2")
              (exec (performAutoSnapshot "#B2") libraryDriftWorld)) = 1%nat /\
  pendingSnapshots (exec (performAutoSnapshot "#B2")
                      (exec (performAutoSnapshot "#B2") libraryDriftWorld)) = 0%Z.
Proof.
  split.
  - exact (proj1 (performAutoSnapshot_coalesces "#B2" runningWorld) eq_refl).
  - destruct (proj2 (performAutoSnapshot_coalesces "#B2" libraryDriftWorld) I)
      as (_ & _ & _ & Hl & Hp).
    split; [exact Hl | exact Hp].
Defined.

Lemma pending_snapshot_follow_up_witness :
  snapshotRunning "#B3"
    (exec (onProcessCompleted exampleHash 0)
          (set_environment laterEnvironment
             (exec (performAutoSnapshot "#B2b") runningWorld))) /\
  pendingSnapshots
    (exec (onProcessCompleted exampleHash 0)
          (set_environment laterEnvironment
             (exec (performAutoSnapshot "#B2b") runningWorld))) = 0%Z /\
  launches
    (exec (onProcessCompleted exampleHash 0)
          (set_environment laterEnvironment
             (exec (performAutoSnapshot "#B2b") runningWorld))) = 1%nat.
Proof.
  pose proof (pending_snapshot_follow_up exampleHash "#B2" "#B2b" laterEnvironment
                runningWorld
                eq_refl
                ltac:(discriminate)
                ltac:(cbn; unfold INT_MAX; lia)) as (_ & Hl & Hr & _ & Hp & _).
  split; [exact Hr | split; [exact Hp | exact Hl]].
Defined.

Lemma snapshot_completed_caught_up_witness :
  storedHash HASH_TYPE_LIBRARY (exec (onProcessCompleted exampleHash 0) runningWorld) = "#B2" /\
  storedHash HASH_TYPE_LOCKFILE (exec (onProcessCompleted exampleHash 0) runningWorld) = "#A" /\
  effects (exec (onProcessCompleted exampleHash 0) runningWorld) =
    [EffPutProjectPersistent "packrat" "packratLockfileHash" "#A";
     EffPutProjectPersistent "packrat" "packratLibraryHash" "#B2";
     EffEnqueClientEvent kInstalledPackagesChanged].
Proof.
  pose proof (snapshot_completed_caught_up exampleHash "#B2" runningWorld
                eq_refl eq_refl) as (Hlib & Hlock & He & _).
  split; [exact Hlib | split; [exact Hlock | exact He]].
Defined.

Lemma snapshot_failed_no_action_witness :
  onCompleted exampleHash 1 runningWorld = (tt, runningWorld) /\
  projectPersistent (exec (onProcessCompleted exampleHash 1) runningWorld) =
    projectPersistent runningWorld /\
  effects (exec (onProcessCompleted exampleHash 1) runningWorld) = [].
Proof.
  pose proof (snapshot_failed_no_action exampleHash "#B2" 1 runningWorld
                ltac:(discriminate)) as (Hc & Hp).
  destruct (Hp eq_refl) as (Hs & He & _).
  split; [exact Hc | split; [exact Hs | exact He]].
Defined.

Lemma failed_snapshot_keeps_pending_witness :
  pendingSnapshots
    (exec (onProcessCompleted exampleHash 1)
          (set_environment laterEnvironment
             (exec (performAutoSnapshot "#B2b") runningWorld))) = 1%Z /\
  snapshotRunning "#B3"
    (exec (onProcessCompleted exampleHash 0)
       (set_environment laterEnvironment
          (exec (performAutoSnapshot "#B2c")
             (set_environment laterEnvironment
                (exec (onProcessCompleted exampleHash 1)
                   (set_environment laterEnvironment
                      (exec (performAutoSnapshot "#B2b") runningWorld))))))) /\
  pendingSnapshots
    (exec (onProcessCompleted exampleHash 0)
       (set_environment laterEnvironment
          (exec (performAutoSnapshot "#B2c")
             (set_environment laterEnvironment
                (exec (onProcessCompleted exampleHash 1)
                   (set_environment laterEnvironment
                      (exec (performAutoSnapshot "#B2b") runningWorld))))))) = 0%Z.
Proof.
  pose proof (failed_snapshot_keeps_pending exampleHash "#B2" "#B2b" "#B2c" 1
                laterEnvironment laterEnvironment laterEnvironment runningWorld
                eq_refl
                ltac:(discriminate)
                ltac:(cbn; unfold INT_MAX; lia)
                ltac:(discriminate)) as (Hk & _ & _ & _ & _ & Hr & Hz & _).
  split; [exact Hk | split; [exact Hr | exact Hz]].
Defined.

Lemma library_hash_ignores_other_files_witness :
  computedHash exampleHash HASH_TYPE_LIBRARY
    (withFile 4 exampleNews (FsFile (Some "news")) libraryDriftWorld) =
  computedHash exampleHash HASH_TYPE_LIBRARY libraryDriftWorld /\
  computedHash exampleHash HASH_TYPE_LIBRARY libraryDriftWorld = "#B2".
Proof.
  split; [| vm_compute; reflexivity].
  apply (library_hash_ignores_other_files exampleHash 4 exampleNews (FsFile (Some "news"))
           libraryDriftWorld).
  left. vm_compute. discriminate.
Defined.

Lemma checkHashes_in_sync_noop_witness :
  projectPersistent
    (exec (checkHashes exampleHash HASH_TYPE_LIBRARY HASH_TYPE_LOCKFILE onLibraryUpdate)
          inSyncWorld) = projectPersistent inSyncWorld /\
  effects
    (exec (checkHashes exampleHash HASH_TYPE_LIBRARY HASH_TYPE_LOCKFILE onLibraryUpdate)
          inSyncWorld) = [].
Proof.
  pose proof (checkHashes_in_sync_noop exampleHash HASH_TYPE_LIBRARY HASH_TYPE_LOCKFILE
                onLibraryUpdate inSyncWorld eq_refl ltac:(vm_compute; reflexivity))
    as (Hs & He & _).
  split; [exact Hs | exact He].
Defined.

Lemma pending_count_bounded_witness :
  (0 <= pendingSnapshots (run exampleHash exampleHistory runningWorld) <= 4)%Z.
Proof.
  exact (pending_count_bounded exampleHash exampleHistory runningWorld
           ltac:(cbn; lia) ltac:(cbn; unfold INT_MAX; lia)).
Defined.

Lemma queued_requests_one_follow_up_witness :
  pendingSnapshots (exec (requestAll ["#B2"; "#B3"; "#B2"; "#B4"]) runningWorld) = 2%Z /\
  launches
    (exec (onProcessCompleted exampleHash 0)
       (set_environment laterEnvironment
          (exec (requestAll ["#B2"; "#B3"; "#B2"; "#B4"]) runningWorld))) = 1%nat /\
  snapshotRunning "#B3"
    (exec (onProcessCompleted exampleHash 0)
       (set_environment laterEnvironment
          (exec (requestAll ["#B2"; "#B3"; "#B2"; "#B4"]) runningWorld))).
Proof.
  pose proof (queued_requests_one_follow_up exampleHash "#B2" ["#B2"; "#B3"; "#B2"; "#B4"]
                laterEnvironment runningWorld eq_refl
                ltac:(cbn; lia) ltac:(cbn; unfold INT_MAX; lia) ltac:(cbn; lia))
    as (_ & _ & Hp & Hl & Hr & _).
  split; [exact Hp | split; [exact Hl | exact Hr]].
Defined.

Lemma onFileChanged_ignored_witness :
  onFileChanged exampleHash exampleNews libraryDriftWorld = (tt, libraryDriftWorld).
Proof.
  apply (onFileChanged_ignored exampleHash exampleNews libraryDriftWorld).
  - vm_compute. discriminate.
  - right. left. split; [vm_compute; reflexivity | vm_compute; discriminate].
Defined.

Lemma restore_needed_is_repeated_witness :
  effects
    (exec (checkHashes exampleHash HASH_TYPE_LOCKFILE HASH_TYPE_LIBRARY onLockfileUpdate)
       (exec (checkHashes exampleHash HASH_TYPE_LOCKFILE HASH_TYPE_LIBRARY onLockfileUpdate)
          (lockfileDriftWorld (Some ["install pkg 1.0"])))) =
    [EffEnqueClientEvent (kPackratRestoreNeeded ["install pkg 1.0"]);
     EffEnqueClientEvent (kPackratRestoreNeeded ["install pkg 1.0"])].
Proof.
  pose proof (restore_needed_is_repeated exampleHash
                (lockfileDriftWorld (Some ["install pkg 1.0"])) ["install pkg 1.0"]
                eq_refl
                ltac:(vm_compute; discriminate)
                ltac:(vm_compute; reflexivity)
                eq_refl
                ltac:(discriminate)) as (_ & _ & _ & He).
  exact He.
Defined.

Lemma library_drift_starts_snapshot_witness :
  snapshotRunning "#B2"
    (exec (checkHashes exampleHash HASH_TYPE_LIBRARY HASH_TYPE_LOCKFILE onLibraryUpdate)
          libraryDriftWorld) /\
  storedHash HASH_TYPE_LIBRARY
    (exec (checkHashes exampleHash HASH_TYPE_LIBRARY HASH_TYPE_LOCKFILE onLibraryUpdate)
          libraryDriftWorld) = "B".
Proof.
  pose proof (library_drift_starts_snapshot exampleHash libraryDriftWorld
                eq_refl
                ltac:(vm_compute; discriminate)
                ltac:(vm_compute; reflexivity)
                I) as (Hs & Hr & _).
  split; [exact Hr |].
  exact (storedHash_ext HASH_TYPE_LIBRARY _ libraryDriftWorld Hs).
Defined.

Lemma snapshot_started_without_command_witness :
  effects (exec (performAutoSnapshot "#B2") noCommandWorld) =
    [EffLogError ErrGetAutoSnapshotCmd; EffProcessStart "" exampleProject "#B2"].
Proof.
  exact (proj1 (snapshot_started_without_command "#B2" noCommandWorld eq_refl I)).
Defined.

Lemma onFileChanged_library_dispatch_witness :
  onFileChanged exampleHash exampleDescription libraryDriftWorld =
  checkHashes exampleHash HASH_TYPE_LIBRARY HASH_TYPE_LOCKFILE onLibraryUpdate
    libraryDriftWorld.
Proof.
  apply (onFileChanged_library_dispatch exampleHash exampleDescription libraryDriftWorld).
  - vm_compute. reflexivity.
  - right. vm_compute. reflexivity.
  - vm_compute. discriminate.
  - vm_compute. discriminate.
  - vm_compute. discriminate.
  - vm_compute. discriminate.
  - vm_compute. discriminate.
Defined.

Lemma packratContext_flags_witness :
  fst (packratContext exampleDefaultContext (list (string * bool)) exampleSession) =
    {| available := true; applicable := true; packified := true; modeOn := true |} /\
  (modeOn (fst (packratContext exampleDefaultContext (list (string * bool)) exampleSession)) = true ->
   packified (fst (packratContext exampleDefaultContext (list (string * bool)) exampleSession)) = true).
Proof.
  split; [reflexivity |].
  exact (proj1 (proj2 (proj2 (proj2 (proj2 (proj2
           (packratContext_flags exampleDefaultContext (list (string * bool)) exampleSession)))))
           eq_refl eq_refl)).
Defined.

Lemma computeLockfileHash_cases_witness :
  computeLockfileHash exampleHash noLockfileWorld = ("", noLockfileWorld) /\
  computeLockfileHash exampleHash unreadableLockfileWorld =
    ("", emit (EffLogError ErrReadLockfile) unreadableLockfileWorld) /\
  computeLockfileHash exampleHash inSyncWorld = ("#A", inSyncWorld).
Proof.
  split; [| split].
  - apply (proj1 (computeLockfileHash_cases exampleHash noLockfileWorld)).
    vm_compute. reflexivity.
  - apply (proj1 (proj2 (computeLockfileHash_cases exampleHash unreadableLockfileWorld)));
      vm_compute; reflexivity.
  - apply (proj2 (proj2 (computeLockfileHash_cases exampleHash inSyncWorld)) "A").
    vm_compute. reflexivity.
Defined.

Lemma onFilesChanged_at_most_one_launch_witness :
  launches (exec (onFilesChanged exampleHash [exampleDescription; exampleDescription])
              runningWorld) = launches runningWorld.
Proof.
  apply (proj2 (onFilesChanged_at_most_one_launch exampleHash
                  [exampleDescription; exampleDescription] runningWorld)).
  vm_compute. reflexivity.
Defined.

Lemma onPackageLibraryMutated_as_file_change_witness :
  onPackageLibraryMutated exampleHash noLockfileWorld = (tt, noLockfileWorld) /\
  onPackageLibraryMutated exampleHash libraryDriftWorld =
    onFileChanged exampleHash (libraryPath libraryDriftWorld) libraryDriftWorld.
Proof.
  split.
  - apply (proj1 (onPackageLibraryMutated_as_file_change exampleHash noLockfileWorld)).
    vm_compute. reflexivity.
  - apply (proj2 (onPackageLibraryMutated_as_file_change exampleHash libraryDriftWorld)).
    vm_compute. reflexivity.
Defined.
